(** * MCP Memory: the dual-store memory engine

    A shallow embedding of [src/utils/db.ts], [src/utils/vectorize.ts],
    the two tools of [src/mcp.ts] and the routes of [src/index.ts], together
    with the properties of the engine that the specification states about
    them and further properties that the code shows.

    JavaScript values are modelled as the code sees them: strings are
    sequences of UTF-16 code units, numbers are IEEE 754 binary64 floats,
    [async] functions are computations in a state-and-exception monad over
    a world that holds the D1 table, the Vectorize index, the console and
    the fault plan of the external services. *)

From Stdlib Require Import List Bool String Ascii NArith ZArith Floats Lia.
From Stdlib Require Import DecimalString Permutation Sorted.
Import ListNotations.

Set Implicit Arguments.
Set Warnings "-register-all".

(** ** JavaScript strings *)

Module Js.

(** A string is its sequence of UTF-16 code units. *)
Definition jsstring : Type := list N.

(** An ASCII literal as a JavaScript string. *)
Definition str (s : string) : jsstring :=
  map N_of_ascii (list_ascii_of_string s).

Fixpoint eqb (s t : jsstring) : bool :=
  match s, t with
  | [], [] => true
  | a :: s', b :: t' => N.eqb a b && eqb s' t'
  | _, _ => false
  end.

(** [WhiteSpace] and [LineTerminator] of ECMAScript: the code units that
    [String.prototype.trim] strips. *)
Definition isWhiteSpace (c : N) : bool :=
  (N.leb 9 c && N.leb c 13)            (* TAB LF VT FF CR *)
  || N.eqb c 32                         (* SP *)
  || N.eqb c 160                        (* NBSP *)
  || N.eqb c 5760                       (* U+1680 *)
  || (N.leb 8192 c && N.leb c 8202)     (* U+2000 .. U+200A *)
  || N.eqb c 8232 || N.eqb c 8233       (* LS PS *)
  || N.eqb c 8239                       (* U+202F *)
  || N.eqb c 8287                       (* U+205F *)
  || N.eqb c 12288                      (* U+3000 *)
  || N.eqb c 65279.                     (* U+FEFF *)

Fixpoint trimStart (s : jsstring) : jsstring :=
  match s with
  | c :: r => if isWhiteSpace c then trimStart r else s
  | [] => []
  end.

Definition trimEnd (s : jsstring) : jsstring := rev (trimStart (rev s)).

(** [s.trim()] *)
Definition trim (s : jsstring) : jsstring := trimEnd (trimStart s).

Fixpoint startsWith (s p : jsstring) : bool :=
  match p, s with
  | [], _ => true
  | a :: p', b :: s' => N.eqb a b && startsWith s' p'
  | _ :: _, [] => false
  end.

(** [s.includes(p)] *)
Fixpoint includes (s p : jsstring) : bool :=
  startsWith s p ||
  match s with
  | [] => false
  | _ :: r => includes r p
  end.

(** ** JavaScript numbers *)

(** [ToBoolean] on a number: [NaN], [+0] and [-0] are falsy. *)
Definition number_truthy (x : float) : bool :=
  negb (PrimFloat.is_nan x || PrimFloat.is_zero x).

(** ** Parsed JSON and metadata values *)

Inductive value : Type :=
| VNull
| VBool (b : bool)
| VNumber (x : float)
| VString (s : jsstring)
| VArray (elems : list value)
| VObject (props : list (jsstring * value)).

(** [ToBoolean] *)
Definition truthy (v : value) : bool :=
  match v with
  | VNull => false
  | VBool b => b
  | VNumber x => number_truthy x
  | VString s => negb (eqb s [])
  | VArray _ | VObject _ => true
  end.

Fixpoint assoc (k : jsstring) (props : list (jsstring * value)) : option value :=
  match props with
  | [] => None
  | (k', v) :: r => if eqb k k' then Some v else assoc k r
  end.

(** [v.k] for a value [v] that is neither [null] nor [undefined]; [None]
    is [undefined].  Primitives and arrays built by a JSON parser have no
    named property of their own that this program reads. *)
Definition get (v : value) (k : jsstring) : option value :=
  match v with
  | VObject props => assoc k props
  | _ => None
  end.

(** [s || d] on strings: the empty string is falsy. *)
Definition or_else (s d : jsstring) : jsstring :=
  if negb (eqb s []) then s else d.

(** An [Error] object, by the two properties that the worker and
    [Error.prototype.toString] read: [name] is "Error" for an [Error],
    "TypeError" for a [TypeError], and whatever its class sets for the
    error a binding rejects with. *)
Record Error : Type := mkError { name : jsstring; message : jsstring }.

(** [new Error(message)] *)
Definition new_Error (message : jsstring) : Error :=
  mkError (str "Error") message.

(** [String(error)], that is [Error.prototype.toString]: the name alone
    when there is no message, the message alone when there is no name,
    otherwise the two with ": " between them. *)
Definition String_of_error (e : Error) : jsstring :=
  if eqb (name e) [] then message e
  else if eqb (message e) [] then name e
  else name e ++ str ": " ++ message e.

End Js.

Import Js.

(** ** The world: the bindings of [Env], the console and the environment *)

(** A row of [memories (id TEXT PRIMARY KEY, userId TEXT NOT NULL,
    content TEXT NOT NULL, created_at TEXT DEFAULT CURRENT_TIMESTAMP)]. *)
Record Row : Type := mkRow {
  row_id : jsstring;
  row_userId : jsstring;
  row_content : jsstring;
  row_created_at : N
}.

(** A vector of the Vectorize index, as [upsert] receives it. *)
Record VectorizeVector : Type := mkVector {
  vec_id : jsstring;
  vec_values : list float;
  vec_namespace : jsstring;
  vec_metadata : option value
}.

(** A match of [VECTORIZE.query]. *)
Record VectorizeMatch : Type := mkMatch {
  match_id : jsstring;
  match_score : float;
  match_metadata : option value
}.

(** The calls the worker makes on its bindings, in the order it makes them. *)
Inductive Call : Type :=
| AI_run (text : jsstring)
| VECTORIZE_upsert (vectors : list VectorizeVector)
| VECTORIZE_query (namespace : jsstring) (topK : nat)
| VECTORIZE_deleteByIds (ids : list jsstring)
| DB_exec_create_table
| DB_insert (id userId content : jsstring)
| DB_delete (id userId : jsstring)
| DB_update (content id userId : jsstring)
| DB_select (userId : jsstring).

Inductive Level : Type := Log | Err.

(** A console line: [console.log(text)] or [console.error(text, error)]. *)
Record Line : Type := mkLine {
  line_level : Level;
  line_text : jsstring;
  line_error : option Error
}.

Record World : Type := mkWorld {
  (** the table [memories] of the D1 binding [env.DB] *)
  DB : list Row;
  (** the vectors of the binding [env.VECTORIZE], and the metric the index
      was created with *)
  VECTORIZE : list VectorizeVector;
  metric : list float -> list float -> float;
  (** the embedding model behind [env.AI.run]: [data[0]] of its output,
      [None] when it is [undefined] *)
  AI : jsstring -> option (list float);
  (** the ids [uuidv4()] yields, and how many it has yielded *)
  uuid : nat -> jsstring;
  uuid_count : nat;
  (** [CURRENT_TIMESTAMP] *)
  clock : N;
  (** the error D1 rejects an [INSERT] with when a row has the id already *)
  unique_violation : Error;
  (** the fault plan: the outcome of the next calls on a binding, [Some e]
      when the call rejects with [e]; calls beyond the plan succeed *)
  faults : list (option Error);
  (** every call made on a binding so far, oldest first *)
  calls : list Call;
  (** the console, oldest line first *)
  console : list Line;
  (** the module variable [dbInitialized] of [index.ts] *)
  dbInitialized : bool
}.

Definition set_DB (rows : list Row) (w : World) : World :=
  mkWorld rows (VECTORIZE w) (metric w) (AI w) (uuid w) (uuid_count w)
          (clock w) (unique_violation w)
          (faults w) (calls w) (console w) (dbInitialized w).

Definition set_VECTORIZE (vs : list VectorizeVector) (w : World) : World :=
  mkWorld (DB w) vs (metric w) (AI w) (uuid w) (uuid_count w)
          (clock w) (unique_violation w)
          (faults w) (calls w) (console w) (dbInitialized w).

Definition set_uuid_count (n : nat) (w : World) : World :=
  mkWorld (DB w) (VECTORIZE w) (metric w) (AI w) (uuid w) n
          (clock w) (unique_violation w)
          (faults w) (calls w) (console w) (dbInitialized w).

Definition set_faults (fs : list (option Error)) (w : World) : World :=
  mkWorld (DB w) (VECTORIZE w) (metric w) (AI w) (uuid w) (uuid_count w)
          (clock w) (unique_violation w)
          fs (calls w) (console w) (dbInitialized w).

Definition set_calls (cs : list Call) (w : World) : World :=
  mkWorld (DB w) (VECTORIZE w) (metric w) (AI w) (uuid w) (uuid_count w)
          (clock w) (unique_violation w)
          (faults w) cs (console w) (dbInitialized w).

Definition set_console (ls : list Line) (w : World) : World :=
  mkWorld (DB w) (VECTORIZE w) (metric w) (AI w) (uuid w) (uuid_count w)
          (clock w) (unique_violation w)
          (faults w) (calls w) ls (dbInitialized w).

Definition set_dbInitialized (b : bool) (w : World) : World :=
  mkWorld (DB w) (VECTORIZE w) (metric w) (AI w) (uuid w) (uuid_count w)
          (clock w) (unique_violation w)
          (faults w) (calls w) (console w) b.

(** ** Asynchronous computations *)

(** The settlement of a promise. *)
Inductive outcome (A : Type) : Type :=
| Returned (a : A)
| Thrown (e : Error).
Arguments Returned {A} a.
Arguments Thrown {A} e.

(** An [async] function body: it runs on a world, settles, and leaves a
    world.  [await] is sequencing. *)
Definition M (A : Type) : Type := World -> outcome A * World.

Definition ret {A} (a : A) : M A := fun w => (Returned a, w).

Definition throw {A} (e : Error) : M A := fun w => (Thrown e, w).

Definition bind {A B} (c : M A) (k : A -> M B) : M B :=
  fun w =>
    match c w with
    | (Returned a, w') => k a w'
    | (Thrown e, w') => (Thrown e, w')
    end.

(** [try { c } catch (e) { h e }] *)
Definition try_catch {A} (c : M A) (h : Error -> M A) : M A :=
  fun w =>
    match c w with
    | (Returned a, w') => (Returned a, w')
    | (Thrown e, w') => h e w'
    end.

Declare Scope js_scope.
Delimit Scope js_scope with js.
Notation "x <- c ;; k" := (bind c (fun x => k))
  (at level 61, c at next level, right associativity) : js_scope.
Notation "c ;; k" := (bind c (fun _ => k))
  (at level 61, right associativity) : js_scope.
Notation "'try' c 'catch' x => h" := (try_catch c (fun x => h))
  (at level 61, c at level 61, x name, h at level 61) : js_scope.
Open Scope js_scope.

Definition console_log (text : jsstring) : M unit :=
  fun w => (Returned tt, set_console (console w ++ [mkLine Log text None]) w).

Definition console_error (text : jsstring) (e : Error) : M unit :=
  fun w => (Returned tt, set_console (console w ++ [mkLine Err text (Some e)]) w).

(** [uuidv4()] *)
Definition uuidv4 : M jsstring :=
  fun w => (Returned (uuid w (uuid_count w)), set_uuid_count (S (uuid_count w)) w).

(** The settlement the fault plan holds for the next call on a binding. *)
Definition next_fault (w : World) : option Error := hd None (faults w).

(** The world once call [c] has been issued. *)
Definition called (c : Call) (w : World) : World :=
  set_faults (tl (faults w)) (set_calls (calls w ++ [c]) w).

(** A call on a binding: it is recorded, then the fault plan decides
    whether it rejects or takes effect. *)
Definition call {A} (c : Call) (effect : M A) : M A :=
  fun w =>
    match next_fault w with
    | Some e => (Thrown e, called c w)
    | None => effect (called c w)
    end.

(** ** The bindings *)

(** *** D1: [env.DB] *)

Record D1Meta : Type := mkMeta { changes : N }.
Record D1Result : Type := mkResult { meta : option D1Meta }.

(** [WHERE id = ? AND userId = ?] *)
Definition row_matches (id userId : jsstring) (r : Row) : bool :=
  Js.eqb (row_id r) id && Js.eqb (row_userId r) userId.

(** The number of rows a statement with that [WHERE] clause writes. *)
Definition rows_matching (id userId : jsstring) (rows : list Row) : N :=
  N.of_nat (List.length (filter (row_matches id userId) rows)).

(** The table after [DELETE]. *)
Definition rows_deleted (id userId : jsstring) (rows : list Row) : list Row :=
  filter (fun r => negb (row_matches id userId r)) rows.

(** The table after [UPDATE ... SET content = ?]. *)
Definition rows_updated (content id userId : jsstring) (rows : list Row)
  : list Row :=
  map (fun r =>
         if row_matches id userId r
         then mkRow (row_id r) (row_userId r) content (row_created_at r)
         else r) rows.

(** [CREATE TABLE IF NOT EXISTS memories (...)]: a world has the table,
    the statement changes nothing. *)
Definition D1_exec_create_table : M unit :=
  call DB_exec_create_table (ret tt).

(** [INSERT INTO memories (id, userId, content) VALUES (?, ?, ?)]: [id] is
    the primary key, a second row with the same id is refused, with the
    error D1 has for that. *)
Definition D1_run_insert (id userId content : jsstring) : M D1Result :=
  call (DB_insert id userId content) (fun w =>
    if existsb (fun r => Js.eqb (row_id r) id) (DB w)
    then (Thrown (unique_violation w), w)
    else (Returned (mkResult (Some (mkMeta 1))),
          set_DB (DB w ++ [mkRow id userId content (clock w)]) w)).

(** [DELETE FROM memories WHERE id = ? AND userId = ?] *)
Definition D1_run_delete (id userId : jsstring) : M D1Result :=
  call (DB_delete id userId) (fun w =>
    (Returned (mkResult (Some (mkMeta (rows_matching id userId (DB w))))),
     set_DB (rows_deleted id userId (DB w)) w)).

(** [UPDATE memories SET content = ? WHERE id = ? AND userId = ?]:
    [changes] counts the rows the statement wrote. *)
Definition D1_run_update (content id userId : jsstring) : M D1Result :=
  call (DB_update content id userId) (fun w =>
    (Returned (mkResult (Some (mkMeta (rows_matching id userId (DB w))))),
     set_DB (rows_updated content id userId (DB w)) w)).

(** *** [Array.prototype.sort] *)

Section Sort.
Variable A : Type.
Variable compareFn : A -> A -> float.

(** [x] comes from before every element of [l]; it moves behind [y]
    only when [compareFn x y > 0], so the sort is stable and a [NaN]
    comparison counts as [0]. *)
Fixpoint insert (x : A) (l : list A) : list A :=
  match l with
  | [] => [x]
  | y :: r => if (0 <? compareFn x y)%float then y :: insert x r else x :: l
  end.

Fixpoint sort (l : list A) : list A :=
  match l with
  | [] => []
  | x :: r => insert x (sort r)
  end.
End Sort.

(** *** Vectorize: [env.VECTORIZE] *)

Record VectorizeMatches : Type := mkMatches {
  matches : option (list VectorizeMatch)
}.

(** A vector replaces the vector of the index that has its id. *)
Definition upsert_one (vs : list VectorizeVector) (v : VectorizeVector)
  : list VectorizeVector :=
  filter (fun v' => negb (Js.eqb (vec_id v') (vec_id v))) vs ++ [v].

(** [env.VECTORIZE.upsert(vectors)] *)
Definition Vectorize_upsert (vectors : list VectorizeVector) : M unit :=
  call (VECTORIZE_upsert vectors) (fun w =>
    (Returned tt, set_VECTORIZE (fold_left upsert_one vectors (VECTORIZE w)) w)).

Definition score_vector (w : World) (queryVector : list float)
  (v : VectorizeVector) : VectorizeMatch :=
  mkMatch (vec_id v) (metric w queryVector (vec_values v)) (vec_metadata v).

(** The [topK] best-scoring vectors of a namespace, best first. *)
Definition nearest (w : World) (queryVector : list float)
  (namespace : jsstring) (topK : nat) : list VectorizeMatch :=
  firstn topK
    (sort (fun a b => (match_score b - match_score a)%float)
       (map (score_vector w queryVector)
          (filter (fun v => Js.eqb (vec_namespace v) namespace) (VECTORIZE w)))).

(** [env.VECTORIZE.query(queryVector, { namespace, topK, returnMetadata:
    "all" })] *)
Definition Vectorize_query (queryVector : list float) (namespace : jsstring)
  (topK : nat) : M VectorizeMatches :=
  call (VECTORIZE_query namespace topK) (fun w =>
    (Returned (mkMatches (Some (nearest w queryVector namespace topK))), w)).

(** [env.VECTORIZE.deleteByIds(ids)]: by id, whatever the namespace. *)
Definition Vectorize_deleteByIds (ids : list jsstring) : M unit :=
  call (VECTORIZE_deleteByIds ids) (fun w =>
    (Returned tt,
     set_VECTORIZE
       (filter (fun v => negb (existsb (Js.eqb (vec_id v)) ids)) (VECTORIZE w)) w)).

(** *** Workers AI: [env.AI] *)

(** [(await env.AI.run("@cf/baai/bge-m3", { text })).data[0]] *)
Definition AI_run_data0 (text : jsstring) : M (option (list float)) :=
  call (AI_run text) (fun w => (Returned (AI w text), w)).

(** ** [src/utils/db.ts] *)

Definition initializeDatabase : M unit :=
  try
    (D1_exec_create_table;;
     console_log (str "Checked/Created memories table in D1."))
  catch e =>
    (console_error (str "Failed to create memories table in D1:") e;;
     throw e).

(** [memoryId] is [None] when the caller leaves the parameter out: its
    default is [uuidv4()]. *)
Definition storeMemoryInD1 (content userId : jsstring)
  (memoryId : option jsstring) : M jsstring :=
  memoryId <- match memoryId with
              | Some id => ret id
              | None => uuidv4
              end;;
  try
    (D1_run_insert memoryId userId content;;
     console_log (str "Memory stored in D1 with ID: " ++ memoryId);;
     ret memoryId)
  catch error =>
    (console_error (str "Error storing memory in D1:") error;;
     throw error).

Definition deleteMemoryFromD1 (memoryId userId : jsstring) : M unit :=
  try
    (D1_run_delete memoryId userId;;
     console_log (str "Memory " ++ memoryId ++ str " deleted from D1"))
  catch error =>
    (console_error (str "Error deleting memory from D1:") error;;
     throw error).

(** The message of the error that [updateMemoryInD1] throws. *)
Definition not_found_message (memoryId userId : jsstring) : jsstring :=
  str "Memory with ID " ++ memoryId ++ str " not found for user " ++ userId
    ++ str " or content unchanged.".

Definition updateMemoryInD1 (memoryId userId newContent : jsstring) : M unit :=
  try
    (result <- D1_run_update newContent memoryId userId;;
     match meta result with
     | Some m =>
         if N.eqb (changes m) 0
         then throw (new_Error (not_found_message memoryId userId))
         else console_log (str "Memory " ++ memoryId ++ str " updated in D1")
     | None => throw (new_Error (not_found_message memoryId userId))
     end)
  catch error =>
    (console_error (str "Error updating memory in D1:") error;;
     throw error).

(** ** [src/utils/vectorize.ts] *)

Definition MINIMUM_SIMILARITY_SCORE : float := 0.5%float.

Definition generateEmbeddings (text : jsstring) : M (list float) :=
  values <- AI_run_data0 text;;
  match values with
  | None => throw (new_Error (str "Failed to generate vector embedding"))
  | Some values => ret values
  end.

(** [{ content: text }] *)
Definition content_metadata (text : jsstring) : value :=
  VObject [(str "content", VString text)].

Definition storeMemory (text userId : jsstring) : M jsstring :=
  memoryId <- uuidv4;;
  values <- generateEmbeddings text;;
  Vectorize_upsert
    [mkVector memoryId values userId (Some (content_metadata text))];;
  ret memoryId.

Record Memory : Type := mkMemory {
  content : jsstring;
  score : float;
  id : jsstring
}.

(** The body of the [.map] callback of [searchMemories]. *)
Definition memory_of_match (m : VectorizeMatch) : Memory :=
  let content :=
    match match_metadata m with
    | Some md =>
        match (if truthy md then get md (str "content") else None) with
        | Some (VString s) => s
        | _ =>
            if negb (Js.eqb (match_id m) [])
            then str "Missing memory content (ID: " ++ match_id m ++ str ")"
            else str "Missing memory content"
        end
    | None =>
        if negb (Js.eqb (match_id m) [])
        then str "Missing memory content (ID: " ++ match_id m ++ str ")"
        else str "Missing memory content"
    end in
  mkMemory content
           (if number_truthy (match_score m) then match_score m else 0%float)
           (match_id m).

Definition searchMemories (query userId : jsstring) : M (list Memory) :=
  queryVector <- generateEmbeddings query;;
  results <- Vectorize_query queryVector userId 10;;
  match matches results with
  | None => ret []
  | Some ms =>
      if Nat.eqb (List.length ms) 0 then ret []
      else
        let memories :=
          map memory_of_match
            (filter (fun m => (MINIMUM_SIMILARITY_SCORE <? match_score m)%float) ms) in
        ret (sort (fun a b => (score b - score a)%float) memories)
  end.

Definition updateMemoryVector (memoryId newContent userId : jsstring) : M unit :=
  newValues <- generateEmbeddings newContent;;
  Vectorize_upsert
    [mkVector memoryId newValues userId (Some (content_metadata newContent))];;
  console_log (str "Vector for memory " ++ memoryId ++ str " (namespace "
                 ++ userId ++ str ") updated.").

Definition deleteVectorById (memoryId userId : jsstring) : M unit :=
  try
    (Vectorize_deleteByIds [memoryId];;
     console_log (str "Attempted global deletion for vector ID " ++ memoryId
                    ++ str ". Deletion was requested for user (namespace): "
                    ++ userId ++ str " Result:"))
  catch error =>
    (console_error (str "Error deleting vector ID " ++ memoryId
                      ++ str " from Vectorize namespace " ++ userId ++ str ":")
                   error;;
     throw error).

(** ** [src/mcp.ts]: the tool [addToMCPMemory] *)

(** [{ content: [{ type: "text", text }] }] *)
Record ToolResult : Type := mkToolResult { text : jsstring }.

(** The tool's handler; [userId] is [this.props.userId]. *)
Definition addToMCPMemory (userId thingToRemember : jsstring) : M ToolResult :=
  try
    (memoryId <- storeMemory thingToRemember userId;;
     storeMemoryInD1 thingToRemember userId (Some memoryId);;
     console_log (str "Memory stored successfully in Vectorize and D1 with ID: "
                    ++ memoryId ++ str ", content: " ++ [34%N] ++ thingToRemember
                    ++ [34%N]);;
     ret (mkToolResult (str "Remembered: " ++ thingToRemember)))
  catch error =>
    (console_error (str "Error storing memory:") error;;
     ret (mkToolResult (str "Failed to remember: " ++ String_of_error error))).

(** ** [src/index.ts]: the routes *)

(** [c.json({ success, error }, status)] *)
Record Response : Type := mkResponse {
  status : N;
  success : bool;
  error : option jsstring
}.

(** [app.use("*", ...)]: the one-time initialisation that runs before
    [next()]. *)
Definition app_use {A} (next : M A) : M A :=
  (fun w =>
     if dbInitialized w then (Returned tt, w)
     else
       (try
          (console_log (str "Attempting database initialization...");;
           initializeDatabase;;
           (fun w' => (Returned tt, set_dbInitialized true w'));;
           console_log (str "Database initialized successfully."))
        catch e =>
          console_error (str "Failed to initialize D1 database:") e) w);;
  next.

(** [app.delete("/:userId/memories/:memoryId", ...)] *)
Definition app_delete (userId memoryId : jsstring) : M Response :=
  try
    (deleteMemoryFromD1 memoryId userId;;
     console_log (str "Deleted memory " ++ memoryId ++ str " for user "
                    ++ userId ++ str " from D1.");;
     (try
        (deleteVectorById memoryId userId;;
         console_log (str "Attempted to delete vector " ++ memoryId
                        ++ str " for user " ++ userId ++ str " from Vectorize."))
      catch vectorError =>
        console_error (str "Failed to delete vector " ++ memoryId
                         ++ str " for user " ++ userId ++ str " from Vectorize:")
                      vectorError);;
     ret (mkResponse 200 true None))
  catch error =>
    (console_error (str "Error deleting memory " ++ memoryId
                      ++ str " (D1 primary) for user " ++ userId ++ str ":")
                   error;;
     ret (mkResponse 500 false (Some (str "Failed to delete memory")))).

(** The first [try] of the PUT route: the response it returns early, or
    [updatedContent].  [body] is the settlement of [c.req.json()]. *)
Definition read_updatedContent (body : outcome value) : M (Response + jsstring) :=
  try
    (body <- (fun w => (body, w));;
     match (if truthy body then get body (str "content") else None) with
     | Some (VString s) =>
         if Js.eqb (trim s) []
         then ret (inl (mkResponse 400 false
                          (Some (str "Invalid or missing content in request body"))))
         else ret (inr (trim s))
     | _ =>
         ret (inl (mkResponse 400 false
                     (Some (str "Invalid or missing content in request body"))))
     end)
  catch e =>
    (console_error (str "Failed to parse request body:") e;;
     ret (inl (mkResponse 400 false (Some (str "Failed to parse request body"))))).

(** [app.put("/:userId/memories/:memoryId", ...)] *)
Definition app_put (userId memoryId : jsstring) (body : outcome value)
  : M Response :=
  r <- read_updatedContent body;;
  match r with
  | inl response => ret response
  | inr updatedContent =>
      try
        (updateMemoryInD1 memoryId userId updatedContent;;
         console_log (str "Updated memory " ++ memoryId ++ str " for user "
                        ++ userId ++ str " in D1.");;
         (try
            (updateMemoryVector memoryId updatedContent userId;;
             console_log (str "Updated vector " ++ memoryId ++ str " for user "
                            ++ userId ++ str " in Vectorize."))
          catch vectorError =>
            console_error (str "Failed to update vector " ++ memoryId
                             ++ str " for user " ++ userId ++ str " in Vectorize:")
                          vectorError);;
         ret (mkResponse 200 true None))
      catch error =>
        (console_error (str "Error updating memory " ++ memoryId
                          ++ str " for user " ++ userId ++ str ":") error;;
         let errorMessage :=
           or_else (message error) (str "Failed to update memory") in
         if includes errorMessage (str "not found")
         then ret (mkResponse 404 false (Some errorMessage))
         else ret (mkResponse 500 false (Some errorMessage)))
  end.

(** ** The rest of the worker *)

(** *** [src/utils/db.ts]: listing *)

(** A row as [SELECT id, content] returns it. *)
Record MemoryItem : Type := mkItem {
  item_id : jsstring;
  item_content : jsstring
}.

(** [ORDER BY created_at DESC]: [r] comes from before every row of [l] and
    moves behind a row only when that row is newer. *)
Fixpoint insert_newest (r : Row) (l : list Row) : list Row :=
  match l with
  | [] => [r]
  | y :: t =>
      if N.ltb (row_created_at r) (row_created_at y)
      then y :: insert_newest r t
      else r :: l
  end.

Fixpoint newest_first (rows : list Row) : list Row :=
  match rows with
  | [] => []
  | r :: t => insert_newest r (newest_first t)
  end.

(** The rows [SELECT id, content FROM memories WHERE userId = ? ORDER BY
    created_at DESC] returns. *)
Definition rows_selected (userId : jsstring) (rows : list Row) : list MemoryItem :=
  map (fun r => mkItem (row_id r) (row_content r))
    (newest_first (filter (fun r => Js.eqb (row_userId r) userId) rows)).

(** [.all()] on that statement: its [results]. *)
Definition D1_all_select (userId : jsstring) : M (list MemoryItem) :=
  call (DB_select userId) (fun w => (Returned (rows_selected userId (DB w)), w)).

Definition getAllMemoriesFromD1 (userId : jsstring) : M (list MemoryItem) :=
  try D1_all_select userId
  catch error =>
    (console_error (str "Error retrieving memories from D1:") error;;
     throw error).

(** *** [src/index.ts]: listing *)

(** [c.json({ success, memories, error }, status)] *)
Record ListResponse : Type := mkListResponse {
  list_status : N;
  list_success : bool;
  list_memories : option (list MemoryItem);
  list_error : option jsstring
}.

(** [app.get("/:userId/memories", ...)] *)
Definition app_get (userId : jsstring) : M ListResponse :=
  try
    (memories <- getAllMemoriesFromD1 userId;;
     ret (mkListResponse 200 true (Some memories) None))
  catch error =>
    (console_error (str "Error retrieving memories:") error;;
     ret (mkListResponse 500 false None (Some (str "Failed to retrieve memories")))).

(** *** [src/mcp.ts]: the tool [searchMCPMemory] *)

(** [String(n)] for an array length. *)
Definition String_of_nat (n : nat) : jsstring :=
  str (NilEmpty.string_of_uint (Nat.to_uint n)).

(** [l.join(sep)] *)
Fixpoint join (sep : jsstring) (l : list jsstring) : jsstring :=
  match l with
  | [] => []
  | [x] => x
  | x :: r => x ++ sep ++ join sep r
  end.

Section SearchTool.
(** [x.toFixed(4)], the decimal rendering of a number. *)
Variable toFixed4 : float -> jsstring.

(** The tool's handler; [userId] is [this.props.userId]. *)
Definition searchMCPMemory (userId informationToGet : jsstring) : M ToolResult :=
  try
    (console_log (str "Searching with query: " ++ [34%N] ++ informationToGet
                    ++ [34%N]);;
     memories <- searchMemories informationToGet userId;;
     console_log (str "Search returned " ++ String_of_nat (List.length memories)
                    ++ str " matches");;
     if Nat.ltb 0 (List.length memories)
     then
       ret (mkToolResult
              (str "Found memories:" ++ [10%N]
                 ++ join [10%N]
                      (map (fun m => content m ++ str " (score: "
                                       ++ toFixed4 (score m) ++ str ")")
                         memories)))
     else ret (mkToolResult (str "No relevant memories found.")))
  catch error =>
    (console_error (str "Error searching memories:") error;;
     ret (mkToolResult (str "Failed to search memories: " ++ String_of_error error))).
End SearchTool.

(** *** [src/index.ts]: the mount of the MCP agent *)

(** [s.split("/")] *)
Fixpoint split_slash (s : jsstring) : list jsstring :=
  match s with
  | [] => [[]]
  | c :: r =>
      if N.eqb c 47 then [] :: split_slash r
      else match split_slash r with
           | [] => [[c]]
           | seg :: segs => (c :: seg) :: segs
           end
  end.

(** [new Response(body, { status })] *)
Record RawResponse : Type := mkRaw {
  raw_status : N;
  raw_body : jsstring
}.

Section Mount.
(** [MyMCP.mount(path).fetch(req, env, ctx)] with [ctx.props = { userId }]:
    the response of the agent, [None] when it has none. *)
Variable MyMCP_fetch : jsstring -> jsstring -> M (option RawResponse).

(** The handler of [app.mount("/", ...)]; [pathname] is
    [new URL(req.url).pathname]. *)
Definition app_mount (pathname : jsstring) : M RawResponse :=
  let pathSegments := split_slash pathname in
  match nth_error pathSegments 1 with
  | Some userId =>
      if Js.eqb userId []
      then ret (mkRaw 400 (str "Bad Request: Could not extract userId from URL path"))
      else
        response <- MyMCP_fetch (str "/" ++ userId ++ str "/sse") userId;;
        match response with
        | Some r => ret r
        | None => ret (mkRaw 404 (str "Not Found within MCP mount"))
        end
  | None =>
      ret (mkRaw 400 (str "Bad Request: Could not extract userId from URL path"))
  end.
End Mount.

(** ** Notions the properties are stated with *)

(** The settlement of a call that takes effect without failing on its own. *)
Definition settle {A} (w : World) (a : A) : outcome A :=
  match next_fault w with
  | Some e => Thrown e
  | None => Returned a
  end.

(** What [searchMemories] builds from the matches of the index. *)
Definition memories_of (ms : list VectorizeMatch) : list Memory :=
  sort (fun a b => (score b - score a)%float)
    (map memory_of_match
       (filter (fun m => (MINIMUM_SIMILARITY_SCORE <? match_score m)%float) ms)).

(** The vector [storeMemory] upserts: its id is the next [uuidv4()]. *)
Definition stored_vector (w : World) (userId text : jsstring)
  (values : list float) : VectorizeVector :=
  mkVector (uuid w (uuid_count w)) values userId (Some (content_metadata text)).

(** The line the handler logs once both writes are made. *)
Definition stored_line (memoryId thingToRemember : jsstring) : Line :=
  mkLine Log
    (str "Memory stored successfully in Vectorize and D1 with ID: "
       ++ memoryId ++ str ", content: " ++ [34%N] ++ thingToRemember ++ [34%N])
    None.

(** The vector [updateMemoryVector] upserts. *)
Definition updated_vector (memoryId newContent userId : jsstring)
  (values : list float) : VectorizeVector :=
  mkVector memoryId values userId (Some (content_metadata newContent)).

(** The response of the PUT route to a body without usable content. *)
Definition invalid_content : Response :=
  mkResponse 400 false (Some (str "Invalid or missing content in request body")).

(** The world in which a route runs, once the middleware has run. *)
Definition initialised (w : World) : World := snd (app_use (ret tt) w).

(** ** Notions the further properties are stated with *)

(** A relation between the world before and the world after that every
    run of [c] satisfies, however [c] settles. *)
Definition keeps {A} (R : World -> World -> Prop) (c : M A) : Prop :=
  forall w, R w (snd (c w)).

(** Relations that do not look at the console, the trace, the fault plan,
    the refusal error, the count of ids drawn or the initialisation flag,
    and that compose. *)
Record Frame (R : World -> World -> Prop) : Prop := mkFrame {
  frame_same :
    forall w w',
      DB w' = DB w -> VECTORIZE w' = VECTORIZE w -> metric w' = metric w ->
      AI w' = AI w -> uuid w' = uuid w -> clock w' = clock w -> R w w';
  frame_trans : forall a b c, R a b -> R b c -> R a c
}.

(** Neither store has changed. *)
Definition same_stores (w w' : World) : Prop :=
  DB w' = DB w /\ VECTORIZE w' = VECTORIZE w.

(** The model, the metric, the id supply and the clock have not changed. *)
Definition same_bindings (w w' : World) : Prop :=
  metric w' = metric w /\ AI w' = AI w /\ uuid w' = uuid w /\ clock w' = clock w.

(** No two rows share an id, no two vectors share an id. *)
Definition unique_ids (w : World) : Prop :=
  NoDup (map row_id (DB w)) /\ NoDup (map vec_id (VECTORIZE w)).

Definition stays_unique (w w' : World) : Prop := unique_ids w -> unique_ids w'.

(** The rows that [touched] does not select are still in the table. *)
Definition rows_untouched (touched : Row -> bool) (w w' : World) : Prop :=
  forall r, In r (DB w) -> touched r = false -> In r (DB w').

(** Every row of the table was in it before. *)
Definition no_new_rows (w w' : World) : Prop := incl (DB w') (DB w).

(** The table has the same rows, up to their content. *)
Definition same_rows_but_content (w w' : World) : Prop :=
  map (fun r => (row_id r, row_userId r, row_created_at r)) (DB w')
  = map (fun r => (row_id r, row_userId r, row_created_at r)) (DB w).

(** The comparator of [searchMemories] does not put [b] before [a]. *)
Definition ranked (a b : Memory) : Prop :=
  (0 <? score b - score a)%float = false.

(** [a] is not older than [b]. *)
Definition not_older (a b : Row) : Prop :=
  (row_created_at b <= row_created_at a)%N.

(** ** Scenarios *)

Module Scenario.

Fixpoint dot (a b : list float) : float :=
  match a, b with
  | x :: a', y :: b' => (x * y + dot a' b')%float
  | _, _ => 0%float
  end.

(** An embedding model with two directions. *)
Definition model (t : jsstring) : option (list float) :=
  if includes t (str "coffee") then Some [1; 0]%float
  else if includes t (str "tea") then Some [0; 1]%float
  else Some [0.5; 0.5]%float.

Definition ids (n : nat) : jsstring := str "id-" ++ [N.of_nat (48 + n)].

(** A refusal of a second row with an id, as one version of D1 words it. *)
Definition refused : Error :=
  new_Error
    (str "D1_ERROR: UNIQUE constraint failed: memories.id: SQLITE_CONSTRAINT").

(** Empty stores, healthy bindings. *)
Definition fresh : World :=
  mkWorld [] [] dot model ids 0 1700000000 refused [] [] [] true.

Definition with_faults (plan : list (option Error)) (w : World) : World :=
  set_faults plan w.

Definition alice : jsstring := str "alice".
Definition bob : jsstring := str "bob".
Definition coffee : jsstring := str "I like dark roast coffee".
Definition tea : jsstring := str "I like tea".

(** Alice and Bob have each remembered the same sentence. *)
Definition shared : World :=
  mkWorld
    [mkRow (ids 0) alice coffee 1700000000; mkRow (ids 1) bob coffee 1700000000]
    [mkVector (ids 0) [1; 0]%float alice (Some (content_metadata coffee));
     mkVector (ids 1) [1; 0]%float bob (Some (content_metadata coffee))]
    dot model ids 2 1700000000 refused [] [] [] true.

(** Alice has remembered her coffee, Bob his tea. *)
Definition two_users : World :=
  mkWorld
    [mkRow (ids 0) alice coffee 1700000000; mkRow (ids 1) bob tea 1700000000]
    [mkVector (ids 0) [1; 0]%float alice (Some (content_metadata coffee));
     mkVector (ids 1) [0; 1]%float bob (Some (content_metadata tea))]
    dot model ids 2 1700000000 refused [] [] [] true.

Definition body_with (s : jsstring) : outcome value :=
  Returned (VObject [(str "content", VString s)]).

Definition outage : Error := new_Error (str "Network connection lost.").

(** What [fetch] rejects with when the network fails. *)
Definition fetch_failed : Error := mkError (str "TypeError") (str "fetch failed").

End Scenario.

(** ** More scenarios *)

Module Cases.

(** An index with a vector that carries no metadata. *)
Definition bare : World :=
  mkWorld [] [mkVector (Scenario.ids 7) [1; 0]%float Scenario.alice None]
    Scenario.dot Scenario.model Scenario.ids 0 1700000000 Scenario.refused
    [] [] [] true.

(** Alice has two memories, the second one newer; Bob has one. *)
Definition listed : World :=
  mkWorld
    [mkRow (Scenario.ids 0) Scenario.alice Scenario.coffee 1700000000;
     mkRow (Scenario.ids 1) Scenario.bob Scenario.tea 1700000050;
     mkRow (Scenario.ids 2) Scenario.alice Scenario.tea 1700000100]
    [] Scenario.dot Scenario.model Scenario.ids 3 1700000200 Scenario.refused
    [] [] [] true.

(** Alice has three vectors, at three distances from "coffee". *)
Definition several : World :=
  mkWorld []
    [mkVector (Scenario.ids 0) [0.75; 0]%float Scenario.alice
       (Some (content_metadata Scenario.coffee));
     mkVector (Scenario.ids 1) [1; 0]%float Scenario.alice
       (Some (content_metadata Scenario.tea));
     mkVector (Scenario.ids 2) [0.25; 0]%float Scenario.alice
       (Some (content_metadata Scenario.tea))]
    Scenario.dot Scenario.model Scenario.ids 3 1700000000 Scenario.refused
    [] [] [] true.

(** The agent answers every request with 200. *)
Definition agent (path userId : jsstring) : M (option RawResponse) :=
  ret (Some (mkRaw 200 (str "sse for " ++ userId))).

(** The id supply yields an id that a row of Alice has already. *)
Definition replayed : World :=
  mkWorld
    [mkRow (Scenario.ids 0) Scenario.alice Scenario.coffee 1700000000]
    [] Scenario.dot Scenario.model Scenario.ids 0 1700000300 Scenario.refused
    [] [] [] true.

(** A worker that has not created its table yet. *)
Definition cold : World :=
  mkWorld [] [] Scenario.dot Scenario.model Scenario.ids 0 1700000000
    Scenario.refused [] [] [] false.

End Cases.

(** * Properties *)

Unset Implicit Arguments.

(** ** Strings *)

Lemma eqb_refl (s : jsstring) : Js.eqb s s = true.
Proof.
  induction s as [|c s IH]; simpl; [reflexivity|].
  now rewrite N.eqb_refl, IH.
Qed.

Lemma eqb_eq (s t : jsstring) : Js.eqb s t = true <-> s = t.
Proof.
  split; [|intros ->; apply eqb_refl].
  revert t; induction s as [|c s IH]; intros [|d t]; simpl; try easy.
  intros H; apply andb_true_iff in H as [Hc Hs].
  apply N.eqb_eq in Hc; apply IH in Hs; now subst.
Qed.

Lemma eqb_neq (s t : jsstring) : Js.eqb s t = false <-> s <> t.
Proof.
  split.
  - intros H E; apply eqb_eq in E; congruence.
  - intros H; destruct (Js.eqb s t) eqn:E; [apply eqb_eq in E; contradiction|reflexivity].
Qed.

Lemma startsWith_app (p s : jsstring) : startsWith (p ++ s) p = true.
Proof.
  induction p as [|c p IH]; simpl; [now destruct s|].
  now rewrite N.eqb_refl, IH.
Qed.

Lemma includes_unfold (s p : jsstring) :
  includes s p =
  startsWith s p || match s with [] => false | _ :: r => includes r p end.
Proof. destruct s; reflexivity. Qed.

Lemma includes_app (a p b : jsstring) : includes (a ++ p ++ b) p = true.
Proof.
  induction a as [|c a IH]; simpl.
  - rewrite includes_unfold, startsWith_app; reflexivity.
  - rewrite IH; apply orb_true_r.
Qed.

(** What [trimStart] removes is white space, and what it leaves does not
    start with white space. *)
Lemma trimStart_spec (s : jsstring) :
  exists lead,
    s = lead ++ trimStart s
    /\ forallb isWhiteSpace lead = true
    /\ (forall c r, trimStart s = c :: r -> isWhiteSpace c = false).
Proof.
  induction s as [|c s (lead & E & Hl & Hh)]; simpl.
  - exists []; repeat split; intros; discriminate.
  - destruct (isWhiteSpace c) eqn:Hc.
    + exists (c :: lead); simpl; rewrite Hc, Hl.
      repeat split; [congruence|assumption].
    + exists []; repeat split.
      intros c' r [= <- <-]; assumption.
Qed.

Lemma trimStart_all_space (s : jsstring) :
  trimStart s = [] <-> forallb isWhiteSpace s = true.
Proof.
  induction s as [|c s IH]; simpl; [tauto|].
  destruct (isWhiteSpace c); simpl; [exact IH|split; discriminate].
Qed.

(** [trim] removes white space at both ends and nothing else, and what it
    leaves neither starts nor ends with white space. *)
Lemma trim_spec (s : jsstring) :
  exists lead trail,
    s = lead ++ trim s ++ trail
    /\ forallb isWhiteSpace lead = true
    /\ forallb isWhiteSpace trail = true
    /\ (forall c r, trim s = c :: r -> isWhiteSpace c = false)
    /\ (forall c r, trim s = r ++ [c] -> isWhiteSpace c = false).
Proof.
  unfold trim, trimEnd.
  destruct (trimStart_spec s) as (lead & E1 & Hl & Hh).
  destruct (trimStart_spec (rev (trimStart s))) as (trail' & E2 & Ht & Hh').
  exists lead, (rev trail').
  assert (E3 : trimStart s = rev (trimStart (rev (trimStart s))) ++ rev trail').
  { rewrite <- rev_app_distr, <- E2, rev_involutive; reflexivity. }
  repeat split.
  - rewrite <- E3; exact E1.
  - exact Hl.
  - rewrite forallb_forall in *; intros c Hc; apply Ht, in_rev; exact Hc.
  - intros c r E.
    destruct (trimStart (rev (trimStart s))) as [|d u] eqn:Eu; [discriminate|].
    rewrite E3 in Hh.
    apply (Hh c (r ++ rev trail')); simpl in *; rewrite E; reflexivity.
  - intros c r E.
    apply (Hh' c (rev r)).
    rewrite <- (rev_involutive (trimStart _)), E, rev_app_distr; reflexivity.
Qed.

Lemma trim_empty_iff (s : jsstring) :
  trim s = [] <-> forallb isWhiteSpace s = true.
Proof.
  unfold trim, trimEnd; split.
  - intros H.
    assert (H' : trimStart (rev (trimStart s)) = []).
    { destruct (trimStart (rev (trimStart s))) as [|d u]; [reflexivity|].
      simpl in H; destruct (rev u); discriminate. }
    apply trimStart_all_space in H'.
    destruct (trimStart_spec s) as (lead & E & Hl & Hh).
    destruct (trimStart s) as [|c r] eqn:Es.
    + now apply trimStart_all_space.
    + specialize (Hh c r eq_refl).
      rewrite forallb_forall in H'.
      rewrite (H' c) in Hh; [discriminate|].
      apply in_rev; rewrite rev_involutive; now left.
  - intros H; apply trimStart_all_space in H; rewrite H; reflexivity.
Qed.

(** ** Numbers *)

Lemma SFcompare_refl_finite s m e :
  SFcompare (S754_finite s m e) (S754_finite s m e) = Some Eq.
Proof.
  simpl; destruct s; rewrite Z.compare_refl;
    now rewrite Pos.compare_cont_refl.
Qed.

Lemma half_repr :
  Prim2SF 0.5%float = S754_finite false 4503599627370496 (-53).
Proof. vm_compute; reflexivity. Qed.

Lemma zero_repr : Prim2SF PrimFloat.zero = S754_zero false.
Proof. vm_compute; reflexivity. Qed.

Lemma SFltb_pos_truthy m0 e0 y :
  SFltb (S754_finite false m0 e0) y = true ->
  SFeqb y y = true /\ SFeqb y (S754_zero false) = false.
Proof.
  destruct y as [s|s| |s m e].
  - destruct s; discriminate.
  - destruct s; [discriminate|]; intros _; split; reflexivity.
  - discriminate.
  - intros _; split.
    + unfold SFeqb; rewrite SFcompare_refl_finite; reflexivity.
    + destruct s; reflexivity.
Qed.

Lemma SFltb_pos_not_le m0 e0 y :
  SFltb (S754_finite false m0 e0) y = true ->
  SFleb y (S754_finite false m0 e0) = false.
Proof.
  destruct y as [s|s| |s m e].
  - destruct s; discriminate.
  - destruct s; [discriminate|]; reflexivity.
  - discriminate.
  - unfold SFltb, SFleb, SFcompare.
    destruct s; [discriminate|].
    rewrite (Z.compare_antisym e0 e).
    destruct (e0 ?= e)%Z; cbn [CompOpp]; try discriminate; try reflexivity.
    change (Pos.compare_cont Eq m m0) with (Pos.compare m m0).
    change (Pos.compare_cont Eq m0 m) with (Pos.compare m0 m).
    rewrite (Pos.compare_antisym m0 m).
    destruct (Pos.compare m0 m); cbn [CompOpp]; try discriminate; reflexivity.
Qed.

(** A number above the threshold is neither [NaN] nor zero. *)
Lemma above_threshold_truthy (x : float) :
  (MINIMUM_SIMILARITY_SCORE <? x)%float = true -> number_truthy x = true.
Proof.
  unfold number_truthy, is_nan, is_zero, MINIMUM_SIMILARITY_SCORE.
  rewrite ltb_spec, !eqb_spec, half_repr, zero_repr.
  intros H; apply SFltb_pos_truthy in H as [-> ->]; reflexivity.
Qed.

Lemma above_threshold_not_le (x : float) :
  (MINIMUM_SIMILARITY_SCORE <? x)%float = true ->
  (x <=? MINIMUM_SIMILARITY_SCORE)%float = false.
Proof.
  unfold MINIMUM_SIMILARITY_SCORE.
  rewrite ltb_spec, leb_spec, half_repr.
  apply SFltb_pos_not_le.
Qed.

(** ** Lists *)

Section SortFacts.
Variable A : Type.
Variable compareFn : A -> A -> float.

Lemma in_insert (x y : A) (l : list A) :
  In y (insert compareFn x l) <-> y = x \/ In y l.
Proof.
  induction l as [|z l IH]; simpl.
  - intuition congruence.
  - destruct (0 <? compareFn x z)%float; simpl; [rewrite IH|];
      intuition congruence.
Qed.

Lemma in_sort (y : A) (l : list A) : In y (sort compareFn l) <-> In y l.
Proof.
  induction l as [|x l IH]; simpl; [tauto|].
  rewrite in_insert, IH; intuition congruence.
Qed.

End SortFacts.

Lemma in_firstn {A : Type} (n : nat) (x : A) (l : list A) :
  In x (firstn n l) -> In x l.
Proof.
  revert l; induction n as [|n IH]; intros [|y l]; simpl; try tauto.
  intros [->|H]; [now left|right; now apply IH].
Qed.

Lemma NoDup_map_In_inj {A B : Type} (f : A -> B) (l : list A) (x y : A) :
  NoDup (map f l) -> In x l -> In y l -> f x = f y -> x = y.
Proof.
  induction l as [|z l IH]; simpl; [tauto|].
  intros H; inversion H as [|? ? Hz Hl]; subst.
  intros [->|Hx] [->|Hy] E; try reflexivity.
  - exfalso; apply Hz; rewrite E; now apply in_map.
  - exfalso; apply Hz; rewrite <- E; now apply in_map.
  - now apply IH.
Qed.

(** ** The ids of the index *)

(** Dropping vectors from an index keeps its ids unique. *)
Lemma unique_ids_filter (keep : VectorizeVector -> bool)
  (vs : list VectorizeVector) :
  NoDup (map vec_id vs) -> NoDup (map vec_id (filter keep vs)).
Proof.
  induction vs as [|v vs IH]; intros Hu; [exact Hu|].
  apply NoDup_cons_iff in Hu as [Hv Hvs]; simpl.
  destruct (keep v); [|now apply IH].
  simpl; apply NoDup_cons; [|now apply IH].
  rewrite in_map_iff; intros (v' & E & Hv').
  apply filter_In in Hv' as [Hv' _].
  apply Hv; rewrite <- E; now apply in_map.
Qed.

(** [upsert] and [deleteByIds] keep the ids of the index unique. *)
Lemma upsert_one_unique (vs : list VectorizeVector) (v : VectorizeVector) :
  NoDup (map vec_id vs) -> NoDup (map vec_id (upsert_one vs v)).
Proof.
  intros H; unfold upsert_one; rewrite map_app.
  apply NoDup_app.
  - now apply unique_ids_filter.
  - repeat constructor; simpl; tauto.
  - intros x Hx [<-|[]].
    apply in_map_iff in Hx as (y & E & Hy).
    apply filter_In in Hy as [_ Hy].
    apply negb_true_iff, eqb_neq in Hy; contradiction.
Qed.

Lemma upsert_unique (vectors vs : list VectorizeVector) :
  NoDup (map vec_id vs) -> NoDup (map vec_id (fold_left upsert_one vectors vs)).
Proof.
  revert vs; induction vectors as [|v vectors IH]; simpl; [trivial|].
  intros vs H; apply IH, upsert_one_unique, H.
Qed.

Lemma deleteByIds_unique (ids : list jsstring) (vs : list VectorizeVector) :
  NoDup (map vec_id vs) ->
  NoDup (map vec_id
           (filter (fun v => negb (existsb (Js.eqb (vec_id v)) ids)) vs)).
Proof. apply unique_ids_filter. Qed.

(** ** Calls on the bindings *)

Lemma AI_run_data0_eq (text : jsstring) (w : World) :
  AI_run_data0 text w = (settle w (AI w text), called (AI_run text) w).
Proof. unfold AI_run_data0, call, settle; now destruct (next_fault w). Qed.

Lemma generateEmbeddings_eq (text : jsstring) (w : World) :
  generateEmbeddings text w =
  (match next_fault w with
   | Some e => Thrown e
   | None =>
       match AI w text with
       | Some values => Returned values
       | None => Thrown (new_Error (str "Failed to generate vector embedding"))
       end
   end, called (AI_run text) w).
Proof.
  unfold generateEmbeddings, bind; rewrite AI_run_data0_eq; unfold settle.
  destruct (next_fault w); [reflexivity|].
  now destruct (AI w text).
Qed.

Lemma Vectorize_query_eq (qv : list float) (ns : jsstring) (k : nat) (w : World) :
  Vectorize_query qv ns k w =
  (settle w (mkMatches (Some (nearest w qv ns k))), called (VECTORIZE_query ns k) w).
Proof. unfold Vectorize_query, call, settle; now destruct (next_fault w). Qed.

Lemma Vectorize_upsert_eq (vs : list VectorizeVector) (w : World) :
  Vectorize_upsert vs w =
  (settle w tt,
   match next_fault w with
   | Some _ => called (VECTORIZE_upsert vs) w
   | None => set_VECTORIZE (fold_left upsert_one vs (VECTORIZE w))
               (called (VECTORIZE_upsert vs) w)
   end).
Proof. unfold Vectorize_upsert, call, settle; now destruct (next_fault w). Qed.

Lemma Vectorize_deleteByIds_eq (ids : list jsstring) (w : World) :
  Vectorize_deleteByIds ids w =
  (settle w tt,
   match next_fault w with
   | Some _ => called (VECTORIZE_deleteByIds ids) w
   | None =>
       set_VECTORIZE
         (filter (fun v => negb (existsb (Js.eqb (vec_id v)) ids)) (VECTORIZE w))
         (called (VECTORIZE_deleteByIds ids) w)
   end).
Proof. unfold Vectorize_deleteByIds, call, settle; now destruct (next_fault w). Qed.

(** ** [searchMemories] *)

Lemma searchMemories_eq (query ns : jsstring) (w : World) :
  searchMemories query ns w =
  match next_fault w with
  | Some e => (Thrown e, called (AI_run query) w)
  | None =>
      match AI w query with
      | None => (Thrown (new_Error (str "Failed to generate vector embedding")),
                 called (AI_run query) w)
      | Some qv =>
          let w1 := called (AI_run query) w in
          (settle w1 (memories_of (nearest w1 qv ns 10)),
           called (VECTORIZE_query ns 10) w1)
      end
  end.
Proof.
  unfold searchMemories, bind; rewrite generateEmbeddings_eq.
  destruct (next_fault w); [reflexivity|].
  destruct (AI w query) as [qv|]; [|reflexivity].
  rewrite Vectorize_query_eq; unfold settle; cbv zeta.
  destruct (next_fault (called (AI_run query) w)); [reflexivity|].
  cbn [matches]; unfold memories_of, ret.
  destruct (nearest (called (AI_run query) w) qv ns 10); reflexivity.
Qed.

(** A search that meets no fault and gets a query vector returns. *)
Lemma searchMemories_returns (query ns : jsstring) (w : World) (qv : list float) :
  faults w = [] -> AI w query = Some qv ->
  searchMemories query ns w =
  (Returned (memories_of (nearest w qv ns 10)),
   called (VECTORIZE_query ns 10) (called (AI_run query) w)).
Proof.
  intros Hf Hq; rewrite searchMemories_eq.
  unfold next_fault, settle, next_fault; rewrite Hf, Hq; cbn.
  rewrite Hf; reflexivity.
Qed.

(** Every memory returned is built from a match of the queried namespace. *)
Lemma searchMemories_matches (query ns : jsstring) (w w' : World)
  (ms : list Memory) :
  searchMemories query ns w = (Returned ms, w') ->
  exists qv, AI w query = Some qv /\ ms = memories_of (nearest w qv ns 10).
Proof.
  rewrite searchMemories_eq.
  destruct (next_fault w); [discriminate|].
  destruct (AI w query) as [qv|]; [|discriminate].
  cbv zeta; unfold settle.
  destruct (next_fault (called (AI_run query) w)); [discriminate|].
  intros [= <- _]; exists qv; split; reflexivity.
Qed.

Lemma in_memories_of (m : Memory) (ms : list VectorizeMatch) :
  In m (memories_of ms) <->
  exists mt, In mt ms
             /\ (MINIMUM_SIMILARITY_SCORE <? match_score mt)%float = true
             /\ m = memory_of_match mt.
Proof.
  unfold memories_of; rewrite in_sort, in_map_iff; split.
  - intros (mt & <- & H); apply filter_In in H as [H1 H2]; eauto.
  - intros (mt & H1 & H2 & ->); exists mt; split; [reflexivity|].
    apply filter_In; auto.
Qed.

Lemma in_nearest (mt : VectorizeMatch) (w : World) (qv : list float)
  (ns : jsstring) (k : nat) :
  In mt (nearest w qv ns k) ->
  exists v, In v (VECTORIZE w) /\ vec_namespace v = ns
            /\ mt = score_vector w qv v.
Proof.
  unfold nearest; intros H; apply in_firstn in H.
  rewrite in_sort, in_map_iff in H; destruct H as (v & <- & H).
  apply filter_In in H as [H1 H2]; apply eqb_eq in H2; eauto.
Qed.

Lemma run_eq {A} (c : M A) (w : World) (a : outcome A) :
  fst (c w) = a -> c w = (a, snd (c w)).
Proof. intros <-; apply surjective_pairing. Qed.

(** C1. Whatever the query, every memory that [searchMemories] returns for
    a namespace is built from a vector the index holds under that very
    namespace: it carries that vector's id and content.  Since ids are
    unique in the index, no returned memory is a vector of another
    namespace, whatever the two namespaces hold. *)
Theorem search_namespace_isolation
  (query ns : jsstring) (w w' : World) (ms : list Memory) (m : Memory) :
  searchMemories query ns w = (Returned ms, w') ->
  In m ms ->
  (exists v qv,
      In v (VECTORIZE w) /\ vec_namespace v = ns /\ vec_id v = id m
      /\ m = memory_of_match (score_vector w qv v))
  /\ (NoDup (map vec_id (VECTORIZE w)) ->
      forall v', In v' (VECTORIZE w) -> vec_namespace v' <> ns ->
                 vec_id v' <> id m).
Proof.
  intros Hrun Hm.
  apply searchMemories_matches in Hrun as (qv & _ & ->).
  apply in_memories_of in Hm as (mt & Hmt & _ & ->).
  apply in_nearest in Hmt as (v & Hv & Hns & ->).
  cbn [VECTORIZE called set_faults set_calls] in Hv.
  split.
  - exists v, qv; repeat split; assumption.
  - intros Hnd v' Hv' Hns' E; apply Hns'.
    cbn [memory_of_match id score_vector match_id] in E.
    rewrite (NoDup_map_In_inj vec_id _ v' v Hnd Hv' Hv E); exact Hns.
Qed.

Lemma search_namespace_isolation_witness :
  let m := mkMemory (str "I like dark roast coffee") 1%float (Scenario.ids 0) in
  fst (searchMemories (str "coffee preference") Scenario.alice Scenario.shared)
  = Returned [m]
  /\ (exists v qv,
         In v (VECTORIZE Scenario.shared)
         /\ vec_namespace v = Scenario.alice /\ vec_id v = id m
         /\ m = memory_of_match (score_vector Scenario.shared qv v))
  /\ vec_id (mkVector (Scenario.ids 1) [1; 0]%float Scenario.bob
               (Some (content_metadata (str "I like dark roast coffee"))))
     <> id m.
Proof.
  intros m.
  assert (Hrun : fst (searchMemories (str "coffee preference") Scenario.alice
                        Scenario.shared) = Returned [m])
    by (vm_compute; reflexivity).
  split; [exact Hrun|].
  destruct (search_namespace_isolation _ _ _ _ _ m (run_eq _ _ _ Hrun)
              (or_introl eq_refl))
    as [Hex Hno].
  split; [exact Hex|].
  apply Hno.
  - vm_compute; repeat constructor; simpl; intuition discriminate.
  - vm_compute; right; left; reflexivity.
  - vm_compute; discriminate.
Defined.

(** C2. Every memory that [searchMemories] returns has a score strictly
    above [MINIMUM_SIMILARITY_SCORE], that is 0.5: a score equal to or
    below 0.5 is never returned. *)
Theorem search_above_threshold
  (query ns : jsstring) (w w' : World) (ms : list Memory) (m : Memory) :
  searchMemories query ns w = (Returned ms, w') ->
  In m ms ->
  (0.5 <? score m)%float = true /\ (score m <=? 0.5)%float = false.
Proof.
  intros Hrun Hm.
  apply searchMemories_matches in Hrun as (qv & _ & ->).
  apply in_memories_of in Hm as (mt & _ & Hs & ->).
  cbn [memory_of_match score].
  rewrite (above_threshold_truthy _ Hs).
  split; [exact Hs|exact (above_threshold_not_le _ Hs)].
Qed.

Lemma search_above_threshold_witness :
  let m := mkMemory (str "I like tea") 1%float (Scenario.ids 1) in
  fst (searchMemories (str "which tea") Scenario.bob Scenario.two_users)
  = Returned [m]
  /\ (0.5 <? score m)%float = true /\ (score m <=? 0.5)%float = false.
Proof.
  intros m.
  assert (Hrun : fst (searchMemories (str "which tea") Scenario.bob
                        Scenario.two_users) = Returned [m])
    by (vm_compute; reflexivity).
  split; [exact Hrun|].
  exact (search_above_threshold _ _ _ _ _ m (run_eq _ _ _ Hrun) (or_introl eq_refl)).
Defined.

(** ** [addToMCPMemory] *)

Lemma D1_run_insert_eq (id userId content : jsstring) (w : World) :
  D1_run_insert id userId content w =
  match next_fault w with
  | Some e => (Thrown e, called (DB_insert id userId content) w)
  | None =>
      if existsb (fun r => Js.eqb (row_id r) id) (DB w)
      then (Thrown (unique_violation w), called (DB_insert id userId content) w)
      else (Returned (mkResult (Some (mkMeta 1))),
            set_DB (DB w ++ [mkRow id userId content (clock w)])
              (called (DB_insert id userId content) w))
  end.
Proof. unfold D1_run_insert, call; now destruct (next_fault w). Qed.

Lemma failed_is_not_remembered (x y : jsstring) :
  str "Failed to remember: " ++ x <> str "Remembered: " ++ y.
Proof. cbn; discriminate. Qed.

Ltac not_remembered :=
  let H := fresh in
  unfold console_error; intros [= <- <-]; cbn [text];
  intros H; now apply failed_is_not_remembered in H.

(** What a call that replies "Remembered: ..." has done. *)
Lemma addToMCPMemory_remembered
  (ns content : jsstring) (w w' : World) (r : ToolResult) :
  addToMCPMemory ns content w = (Returned r, w') ->
  text r = str "Remembered: " ++ content ->
  exists values,
    AI w content = Some values
    /\ uuid_count w' = S (uuid_count w)
    /\ existsb (fun r => Js.eqb (row_id r) (uuid w (uuid_count w))) (DB w) = false
    /\ calls w' = calls w ++ [AI_run content;
                              VECTORIZE_upsert [stored_vector w ns content values];
                              DB_insert (uuid w (uuid_count w)) ns content]
    /\ VECTORIZE w' = upsert_one (VECTORIZE w) (stored_vector w ns content values)
    /\ DB w' = DB w ++ [mkRow (uuid w (uuid_count w)) ns content (clock w)].
Proof.
  unfold addToMCPMemory, storeMemory, storeMemoryInD1, try_catch, bind, uuidv4,
    ret, throw.
  rewrite generateEmbeddings_eq.
  destruct (next_fault _) eqn:F1; [not_remembered|].
  cbn [AI set_uuid_count].
  destruct (AI w content) as [values|] eqn:HAI; [|not_remembered].
  rewrite Vectorize_upsert_eq; unfold settle.
  destruct (next_fault (called _ _)) eqn:F2; [not_remembered|].
  rewrite D1_run_insert_eq.
  destruct (next_fault (set_VECTORIZE _ _)) eqn:F3; [not_remembered|].
  cbn [DB set_VECTORIZE called set_faults set_calls set_uuid_count].
  destruct (existsb _ (DB w)) eqn:Hfresh; [not_remembered|].
  unfold console_log; intros [= <- <-] _.
  exists values; cbn; rewrite <- !app_assoc; repeat split.
Qed.

(** A memory remembered for one user is not found by a search for another
    user, whatever the query and whatever the two users have stored. *)
Lemma remembered_stays_in_its_namespace
  (ns other content query : jsstring) (w w1 w2 : World) (r : ToolResult)
  (ms : list Memory) (m : Memory) :
  addToMCPMemory ns content w = (Returned r, w1) ->
  text r = str "Remembered: " ++ content ->
  other <> ns ->
  searchMemories query other w1 = (Returned ms, w2) ->
  In m ms ->
  id m <> uuid w (uuid_count w).
Proof.
  intros Hrem Htext Hother Hsearch Hm E.
  apply (addToMCPMemory_remembered _ _ _ _ _ Hrem) in Htext
    as (values & _ & _ & _ & _ & HV & _).
  apply searchMemories_matches in Hsearch as (qv & _ & ->).
  apply in_memories_of in Hm as (mt & Hmt & _ & ->).
  apply in_nearest in Hmt as (v & Hv & Hns & ->).
  cbn [VECTORIZE called set_faults set_calls] in Hv.
  cbn [memory_of_match id score_vector match_id] in E.
  rewrite HV in Hv; unfold upsert_one in Hv.
  apply in_app_or in Hv as [Hv|[<-|[]]].
  - apply filter_In in Hv as [_ Hv]; apply negb_true_iff, eqb_neq in Hv.
    apply Hv; exact E.
  - apply Hother; symmetry; exact Hns.
Qed.

(** The handler after its two writes: it logs the id and replies with the
    content. *)
Lemma addToMCPMemory_after_writes
  (ns content id id' : jsstring) (w w1 w2 : World) :
  storeMemory content ns w = (Returned id, w1) ->
  storeMemoryInD1 content ns (Some id) w1 = (Returned id', w2) ->
  addToMCPMemory ns content w
  = (Returned (mkToolResult (str "Remembered: " ++ content)),
     set_console (console w2 ++ [stored_line id content]) w2).
Proof.
  intros H1 H2; unfold addToMCPMemory, try_catch, bind at 1.
  rewrite H1; unfold bind at 1; rewrite H2; reflexivity.
Qed.

(** What the two writes have done when both return. *)
Lemma both_writes_return
  (ns content id id' : jsstring) (w w1 w2 : World) :
  storeMemory content ns w = (Returned id, w1) ->
  storeMemoryInD1 content ns (Some id) w1 = (Returned id', w2) ->
  exists values,
    AI w content = Some values
    /\ id = uuid w (uuid_count w) /\ id' = id
    /\ uuid_count w2 = S (uuid_count w)
    /\ existsb (fun r => Js.eqb (row_id r) id) (DB w) = false
    /\ calls w1 = calls w ++ [AI_run content;
                              VECTORIZE_upsert [stored_vector w ns content values]]
    /\ VECTORIZE w1 = upsert_one (VECTORIZE w) (stored_vector w ns content values)
    /\ DB w1 = DB w
    /\ calls w2 = calls w1 ++ [DB_insert id ns content]
    /\ DB w2 = DB w ++ [mkRow id ns content (clock w)]
    /\ VECTORIZE w2 = VECTORIZE w1.
Proof.
  unfold storeMemory, bind, uuidv4, ret.
  rewrite generateEmbeddings_eq.
  destruct (next_fault _); [discriminate|].
  cbn [AI set_uuid_count].
  destruct (AI w content) as [values|]; [|discriminate].
  rewrite Vectorize_upsert_eq; unfold settle.
  destruct (next_fault (called _ _)); [discriminate|].
  intros [= <- <-].
  unfold storeMemoryInD1, try_catch, bind, ret, throw.
  rewrite D1_run_insert_eq.
  destruct (next_fault (set_VECTORIZE _ _)); [discriminate|].
  cbn [DB set_VECTORIZE called set_faults set_calls set_uuid_count].
  destruct (existsb _ (DB w)) eqn:Hfresh; [discriminate|].
  unfold console_log; intros [= <- <-].
  exists values; cbn; rewrite <- !app_assoc; repeat split.
Qed.

(** C3.  Whenever the two writes of a remember call both return, one id
    has been drawn from [uuidv4()], an id no row of the table had; the
    model was asked for the embedding, the vector was upserted under that
    id while the table was still as before, and only then the row was
    inserted under the same id; [storeMemory] and [storeMemoryInD1] both
    return that id, and the handler logs it and replies "Remembered: "
    followed by the content.  A call whose reply is that text is such a
    call.  When generating the embedding fails, [storeMemory] rejects, the
    model is the only binding called and neither store is written. *)
Theorem remember_writes_vector_then_record
  (ns content : jsstring) (w : World) :
  (forall id w1 id' w2,
      storeMemory content ns w = (Returned id, w1) ->
      storeMemoryInD1 content ns (Some id) w1 = (Returned id', w2) ->
      exists values,
        AI w content = Some values
        /\ id = uuid w (uuid_count w) /\ id' = id
        /\ uuid_count w2 = S (uuid_count w)
        /\ existsb (fun r => Js.eqb (row_id r) id) (DB w) = false
        /\ calls w1 = calls w ++ [AI_run content;
                                  VECTORIZE_upsert [stored_vector w ns content values]]
        /\ VECTORIZE w1 = upsert_one (VECTORIZE w) (stored_vector w ns content values)
        /\ DB w1 = DB w
        /\ calls w2 = calls w1 ++ [DB_insert id ns content]
        /\ DB w2 = DB w ++ [mkRow id ns content (clock w)]
        /\ VECTORIZE w2 = VECTORIZE w1
        /\ addToMCPMemory ns content w
           = (Returned (mkToolResult (str "Remembered: " ++ content)),
              set_console (console w2 ++ [stored_line id content]) w2))
  /\ (forall r w',
         addToMCPMemory ns content w = (Returned r, w') ->
         text r = str "Remembered: " ++ content ->
         exists id w1 w2,
           storeMemory content ns w = (Returned id, w1)
           /\ storeMemoryInD1 content ns (Some id) w1 = (Returned id, w2))
  /\ (forall e w1,
         generateEmbeddings content (set_uuid_count (S (uuid_count w)) w)
         = (Thrown e, w1) ->
         storeMemory content ns w = (Thrown e, w1)
         /\ DB w1 = DB w /\ VECTORIZE w1 = VECTORIZE w
         /\ calls w1 = calls w ++ [AI_run content]
         /\ exists w',
             addToMCPMemory ns content w
             = (Returned (mkToolResult
                            (str "Failed to remember: " ++ String_of_error e)), w')
             /\ DB w' = DB w /\ VECTORIZE w' = VECTORIZE w
             /\ calls w' = calls w ++ [AI_run content]).
Proof.
  split; [|split].
  - intros id w1 id' w2 H1 H2.
    destruct (both_writes_return ns content id id' w w1 w2 H1 H2)
      as (values & HAI & Hid & Hid' & Hn & Hfresh & Hc1 & HV1 & HD1 & Hc2 & HD2 & HV2).
    exists values; repeat (split; [assumption|]).
    exact (addToMCPMemory_after_writes ns content id id' w w1 w2 H1 H2).
  - intros r w'.
    unfold addToMCPMemory, try_catch, bind at 1.
    destruct (storeMemory content ns w) as [[id|e] w1] eqn:H1; [|not_remembered].
    unfold bind at 1.
    destruct (storeMemoryInD1 content ns (Some id) w1) as [[id'|e] w2] eqn:H2;
      [|not_remembered].
    intros _ _.
    destruct (both_writes_return ns content id id' w w1 w2 H1 H2)
      as (_ & _ & _ & -> & _).
    exists id, w1, w2; split; [reflexivity|exact H2].
  - intros e w1 H.
    assert (Hs : storeMemory content ns w = (Thrown e, w1))
      by (unfold storeMemory, bind, uuidv4; rewrite H; reflexivity).
    rewrite generateEmbeddings_eq in H; injection H as _ <-.
    split; [exact Hs|]; repeat (split; [reflexivity|]).
    unfold addToMCPMemory, try_catch, bind; rewrite Hs.
    unfold console_error, ret; eexists; split; [reflexivity|]; repeat split.
Qed.

Lemma remember_writes_vector_then_record_witness :
  (exists w1 w2,
      storeMemory Scenario.coffee Scenario.alice Scenario.fresh
      = (Returned (Scenario.ids 0), w1)
      /\ storeMemoryInD1 Scenario.coffee Scenario.alice (Some (Scenario.ids 0)) w1
         = (Returned (Scenario.ids 0), w2)
      /\ calls w2
         = [AI_run Scenario.coffee;
            VECTORIZE_upsert
              [stored_vector Scenario.fresh Scenario.alice Scenario.coffee
                 [1; 0]%float];
            DB_insert (Scenario.ids 0) Scenario.alice Scenario.coffee]
      /\ DB w1 = []
      /\ DB w2 = [mkRow (Scenario.ids 0) Scenario.alice Scenario.coffee 1700000000]
      /\ addToMCPMemory Scenario.alice Scenario.coffee Scenario.fresh
         = (Returned (mkToolResult (str "Remembered: I like dark roast coffee")),
            set_console
              (console w2 ++ [stored_line (Scenario.ids 0) Scenario.coffee]) w2))
  /\ (exists w',
         addToMCPMemory Scenario.alice Scenario.coffee
           (Scenario.with_faults [Some Scenario.fetch_failed] Scenario.fresh)
         = (Returned (mkToolResult
                        (str "Failed to remember: TypeError: fetch failed")),
            w')
         /\ DB w' = [] /\ VECTORIZE w' = []
         /\ calls w' = [AI_run Scenario.coffee]).
Proof.
  split.
  - assert (H1 : fst (storeMemory Scenario.coffee Scenario.alice Scenario.fresh)
                 = Returned (Scenario.ids 0)) by (vm_compute; reflexivity).
    apply run_eq in H1.
    remember (snd (storeMemory Scenario.coffee Scenario.alice Scenario.fresh))
      as w1 eqn:E1.
    assert (H2 : fst (storeMemoryInD1 Scenario.coffee Scenario.alice
                        (Some (Scenario.ids 0)) w1)
                 = Returned (Scenario.ids 0)) by (subst w1; vm_compute; reflexivity).
    apply run_eq in H2.
    remember (snd (storeMemoryInD1 Scenario.coffee Scenario.alice
                     (Some (Scenario.ids 0)) w1)) as w2 eqn:E2.
    destruct (remember_writes_vector_then_record Scenario.alice Scenario.coffee
                Scenario.fresh) as [Hok _].
    destruct (Hok _ _ _ _ H1 H2)
      as (values & HAI & _ & _ & _ & _ & Hc1 & _ & HD1 & Hc2 & HD2 & _ & Hrun).
    injection HAI as <-.
    exists w1, w2; split; [exact H1|]; split; [exact H2|].
    split; [rewrite Hc2, Hc1; reflexivity|].
    split; [exact HD1|]; split; [exact HD2|exact Hrun].
  - destruct (remember_writes_vector_then_record Scenario.alice Scenario.coffee
                (Scenario.with_faults [Some Scenario.fetch_failed] Scenario.fresh))
      as (_ & _ & Hfail).
    assert (Hemb : fst (generateEmbeddings Scenario.coffee
                          (set_uuid_count 1
                             (Scenario.with_faults [Some Scenario.fetch_failed]
                                Scenario.fresh)))
                   = Thrown Scenario.fetch_failed) by (vm_compute; reflexivity).
    destruct (Hfail Scenario.fetch_failed _ (run_eq _ _ _ Hemb)) as (_ & _ & _ & _ & H).
    exact H.
Defined.

(** C5 at its failing input.  The empty string is not rejected: whatever
    the world, the embedding of the empty text is requested, and with
    healthy bindings the vector and the row are written and the reply is
    "Remembered: ". *)
Theorem remember_accepts_empty_content :
  (forall ns w, exists rest,
      calls (snd (addToMCPMemory ns [] w)) = calls w ++ AI_run [] :: rest)
  /\ exists w',
      addToMCPMemory Scenario.alice [] Scenario.fresh
      = (Returned (mkToolResult (str "Remembered: ")), w')
      /\ calls w'
         = [AI_run [];
            VECTORIZE_upsert
              [mkVector (Scenario.ids 0) [0.5; 0.5]%float Scenario.alice
                 (Some (VObject [(str "content", VString [])]))];
            DB_insert (Scenario.ids 0) Scenario.alice []]
      /\ DB w' = [mkRow (Scenario.ids 0) Scenario.alice [] 1700000000]
      /\ map vec_id (VECTORIZE w') = [Scenario.ids 0].
Proof.
  split.
  - intros ns w.
    unfold addToMCPMemory, storeMemory, storeMemoryInD1, try_catch, bind, uuidv4,
      ret, throw.
    rewrite generateEmbeddings_eq.
    destruct (next_fault _); [eexists; reflexivity|].
    cbn [AI set_uuid_count].
    destruct (AI w []) as [values|]; [|eexists; reflexivity].
    rewrite Vectorize_upsert_eq; unfold settle.
    destruct (next_fault (called _ _)); [cbn; rewrite <- app_assoc; eexists; reflexivity|].
    rewrite D1_run_insert_eq.
    destruct (next_fault (set_VECTORIZE _ _));
      [cbn; rewrite <- !app_assoc; eexists; reflexivity|].
    cbn [DB set_VECTORIZE called set_faults set_calls set_uuid_count].
    destruct (existsb _ (DB w)); cbn; rewrite <- !app_assoc; eexists; reflexivity.
  - eexists; split; [apply run_eq; vm_compute; reflexivity|].
    repeat split; vm_compute; reflexivity.
Qed.

(** ** The routes *)

Lemma D1_run_delete_eq (id userId : jsstring) (w : World) :
  D1_run_delete id userId w =
  (settle w (mkResult (Some (mkMeta (rows_matching id userId (DB w))))),
   match next_fault w with
   | Some _ => called (DB_delete id userId) w
   | None => set_DB (rows_deleted id userId (DB w)) (called (DB_delete id userId) w)
   end).
Proof. unfold D1_run_delete, call, settle; now destruct (next_fault w). Qed.

Lemma D1_run_update_eq (content id userId : jsstring) (w : World) :
  D1_run_update content id userId w =
  (settle w (mkResult (Some (mkMeta (rows_matching id userId (DB w))))),
   match next_fault w with
   | Some _ => called (DB_update content id userId) w
   | None => set_DB (rows_updated content id userId (DB w))
               (called (DB_update content id userId) w)
   end).
Proof. unfold D1_run_update, call, settle; now destruct (next_fault w). Qed.

Lemma rows_matching_zero (id userId : jsstring) (rows : list Row) :
  rows_matching id userId rows = 0%N <->
  forall r, In r rows -> row_matches id userId r = false.
Proof.
  unfold rows_matching; split.
  - intros H r Hr; destruct (row_matches id userId r) eqn:E; [|reflexivity].
    assert (Hin : In r (filter (row_matches id userId) rows))
      by (apply filter_In; auto).
    destruct (filter _ rows); [contradiction|discriminate].
  - intros H; induction rows as [|r rows IH]; [reflexivity|]; simpl.
    rewrite (H r (or_introl eq_refl)); apply IH; intros; apply H; now right.
Qed.

Lemma rows_updated_none (content id userId : jsstring) (rows : list Row) :
  (forall r, In r rows -> row_matches id userId r = false) ->
  rows_updated content id userId rows = rows.
Proof.
  intros H; induction rows as [|r rows IH]; [reflexivity|]; simpl.
  rewrite (H r (or_introl eq_refl)); f_equal; apply IH; intros; apply H; now right.
Qed.

Lemma rows_deleted_none (id userId : jsstring) (rows : list Row) :
  (forall r, In r rows -> row_matches id userId r = false) ->
  rows_deleted id userId rows = rows.
Proof.
  intros H; induction rows as [|r rows IH]; [reflexivity|]; simpl.
  rewrite (H r (or_introl eq_refl)); simpl; f_equal; apply IH; intros; apply H; now right.
Qed.

Lemma rows_deleted_gone (id userId : jsstring) (rows : list Row) (r : Row) :
  In r (rows_deleted id userId rows) -> row_matches id userId r = false.
Proof.
  unfold rows_deleted; intros H; apply filter_In in H as [_ H].
  now apply negb_true_iff in H.
Qed.

Lemma next_fault_set_console (l : list Line) (w : World) :
  next_fault (set_console l w) = next_fault w.
Proof. reflexivity. Qed.

Lemma next_fault_set_DB (rows : list Row) (w : World) :
  next_fault (set_DB rows w) = next_fault w.
Proof. reflexivity. Qed.

Lemma next_fault_set_VECTORIZE (vs : list VectorizeVector) (w : World) :
  next_fault (set_VECTORIZE vs w) = next_fault w.
Proof. reflexivity. Qed.

Lemma next_fault_set_uuid_count (n : nat) (w : World) :
  next_fault (set_uuid_count n w) = next_fault w.
Proof. reflexivity. Qed.

Lemma next_fault_set_dbInitialized (b : bool) (w : World) :
  next_fault (set_dbInitialized b w) = next_fault w.
Proof. reflexivity. Qed.

Ltac same_fault :=
  rewrite ?next_fault_set_console, ?next_fault_set_DB,
    ?next_fault_set_VECTORIZE, ?next_fault_set_uuid_count,
    ?next_fault_set_dbInitialized.

(** *** DELETE *)

(** The world [deleteMemoryFromD1] leaves, and its settlement. *)
Lemma deleteMemoryFromD1_eq (memoryId userId : jsstring) (w : World) :
  deleteMemoryFromD1 memoryId userId w =
  match next_fault w with
  | Some e =>
      (Thrown e,
       set_console (console w ++ [mkLine Err (str "Error deleting memory from D1:") (Some e)])
         (called (DB_delete memoryId userId) w))
  | None =>
      (Returned tt,
       set_console (console w ++ [mkLine Log (str "Memory " ++ memoryId ++ str " deleted from D1") None])
         (set_DB (rows_deleted memoryId userId (DB w))
            (called (DB_delete memoryId userId) w)))
  end.
Proof.
  unfold deleteMemoryFromD1, try_catch, bind; rewrite D1_run_delete_eq.
  unfold settle; destruct (next_fault w); reflexivity.
Qed.

(** C6. When [deleteMemoryFromD1] succeeds, the DELETE route answers 200
    with [success: true], whether [deleteVectorById] then succeeds (the
    vector of that id is gone) or fails (the index is as it was and the
    failure is on the console). *)
Theorem forget_succeeds_if_record_delete_succeeds
  (userId memoryId : jsstring) (w w1 : World) :
  deleteMemoryFromD1 memoryId userId w = (Returned tt, w1) ->
  exists w',
    app_delete userId memoryId w = (Returned (mkResponse 200 true None), w')
    /\ DB w' = DB w1
    /\ match next_fault w1 with
       | None => 
           VECTORIZE w' =
           filter (fun v => negb (existsb (Js.eqb (vec_id v)) [memoryId])) (VECTORIZE w1)
       | Some e =>
           VECTORIZE w' = VECTORIZE w1
           /\ In (mkLine Err (str "Failed to delete vector " ++ memoryId
                                ++ str " for user " ++ userId
                                ++ str " from Vectorize:") (Some e))
                 (console w')
       end.
Proof.
  intros H; unfold app_delete, try_catch, bind; rewrite H.
  unfold console_log at 1, deleteVectorById, try_catch, bind.
  rewrite Vectorize_deleteByIds_eq; unfold settle.
  same_fault.
  destruct (next_fault w1) as [e|].
  - eexists; split; [reflexivity|]; cbn; repeat split.
    apply in_or_app; right; now left.
  - eexists; split; [reflexivity|]; cbn; repeat split.
Qed.

Lemma forget_succeeds_if_record_delete_succeeds_witness :
  let w := Scenario.with_faults [None; Some Scenario.outage] Scenario.two_users in
  exists w',
    app_delete Scenario.alice (Scenario.ids 0) w
    = (Returned (mkResponse 200 true None), w').
Proof.
  intros w.
  assert (Hrec : fst (deleteMemoryFromD1 (Scenario.ids 0) Scenario.alice w)
                 = Returned tt) by (vm_compute; reflexivity).
  destruct (forget_succeeds_if_record_delete_succeeds Scenario.alice
              (Scenario.ids 0) w _ (run_eq _ _ _ Hrec)) as (w' & H & _).
  exists w'; exact H.
Defined.

(** When the DELETE statement runs, the route answers 200 and the table
    has lost the rows of [(memoryId, userId)], whatever they were. *)
Lemma app_delete_runs (userId memoryId : jsstring) (w : World) :
  next_fault w = None ->
  exists w',
    app_delete userId memoryId w = (Returned (mkResponse 200 true None), w')
    /\ DB w' = rows_deleted memoryId userId (DB w)
    /\ next_fault w' = hd None (tl (tl (faults w))).
Proof.
  intros F; unfold app_delete, try_catch, bind.
  rewrite deleteMemoryFromD1_eq, F.
  unfold console_log at 1, deleteVectorById, try_catch, bind.
  rewrite Vectorize_deleteByIds_eq; unfold settle; same_fault.
  destruct (next_fault (called _ w)); eexists; (split; [reflexivity|]);
    cbn; split; reflexivity.
Qed.

(** C9. When the DELETE statement runs, the DELETE route answers 200 with
    [success: true] even if no row has that id and user: the number of rows
    deleted is not looked at, and the table is left as it was.  So a second
    DELETE of the same id succeeds like the first. *)
Theorem forget_absent_record_succeeds (userId memoryId : jsstring) (w : World) :
  next_fault w = None ->
  ((forall r, In r (DB w) -> row_matches memoryId userId r = false) ->
   exists w',
     app_delete userId memoryId w = (Returned (mkResponse 200 true None), w')
     /\ DB w' = DB w)
  /\ (exists w1,
         app_delete userId memoryId w = (Returned (mkResponse 200 true None), w1)
         /\ (next_fault w1 = None ->
             exists w2,
               app_delete userId memoryId w1
               = (Returned (mkResponse 200 true None), w2)
               /\ DB w2 = DB w1)).
Proof.
  intros F; destruct (app_delete_runs userId memoryId w F) as (w1 & H1 & D1 & _).
  split.
  - intros Habsent; exists w1; split; [exact H1|].
    rewrite D1; now apply rows_deleted_none.
  - exists w1; split; [exact H1|]; intros F1.
    destruct (app_delete_runs userId memoryId w1 F1) as (w2 & H2 & D2 & _).
    exists w2; split; [exact H2|].
    rewrite D2; apply rows_deleted_none.
    intros r Hr; rewrite D1 in Hr; now apply rows_deleted_gone in Hr.
Qed.

Lemma forget_absent_record_succeeds_witness :
  exists w',
    app_delete Scenario.bob (Scenario.ids 0) Scenario.two_users
    = (Returned (mkResponse 200 true None), w')
    /\ DB w' = DB Scenario.two_users.
Proof.
  destruct (forget_absent_record_succeeds Scenario.bob (Scenario.ids 0)
              Scenario.two_users eq_refl) as [Habsent _].
  apply Habsent.
  intros r [<-|[<-|[]]]; vm_compute; reflexivity.
Defined.

(** *** PUT *)

Lemma not_found_message_includes (memoryId userId : jsstring) :
  includes (not_found_message memoryId userId) (str "not found") = true.
Proof.
  unfold not_found_message.
  replace (str "Memory with ID " ++ memoryId ++ str " not found for user "
             ++ userId ++ str " or content unchanged.")
    with ((str "Memory with ID " ++ memoryId ++ [32%N]) ++ str "not found"
            ++ (str " for user " ++ userId ++ str " or content unchanged.")).
  - apply includes_app.
  - rewrite <- !app_assoc; reflexivity.
Qed.

Lemma get_content_truthy (v x : value) :
  get v (str "content") = Some x -> truthy v = true.
Proof. destruct v; simpl; try discriminate; reflexivity. Qed.

Lemma read_updatedContent_valid (v : value) (s : jsstring) (w : World) :
  get v (str "content") = Some (VString s) -> trim s <> [] ->
  read_updatedContent (Returned v) w = (Returned (inr (trim s)), w).
Proof.
  intros Hget Hne; unfold read_updatedContent, try_catch, bind.
  rewrite (get_content_truthy _ _ Hget), Hget.
  apply eqb_neq in Hne; rewrite Hne; reflexivity.
Qed.

Lemma read_updatedContent_blank (v : value) (s : jsstring) (w : World) :
  get v (str "content") = Some (VString s) -> trim s = [] ->
  read_updatedContent (Returned v) w = (Returned (inl invalid_content), w).
Proof.
  intros Hget He; unfold read_updatedContent, try_catch, bind.
  rewrite (get_content_truthy _ _ Hget), Hget, He; reflexivity.
Qed.

Lemma updateMemoryInD1_eq (memoryId userId newContent : jsstring) (w : World) :
  updateMemoryInD1 memoryId userId newContent w =
  let c := DB_update newContent memoryId userId in
  match next_fault w with
  | Some e =>
      (Thrown e,
       set_console
         (console w ++ [mkLine Err (str "Error updating memory in D1:") (Some e)])
         (called c w))
  | None =>
      if N.eqb (rows_matching memoryId userId (DB w)) 0
      then
        (Thrown (new_Error (not_found_message memoryId userId)),
         set_console
           (console w ++ [mkLine Err (str "Error updating memory in D1:")
                            (Some (new_Error (not_found_message memoryId userId)))])
           (set_DB (rows_updated newContent memoryId userId (DB w)) (called c w)))
      else
        (Returned tt,
         set_console
           (console w ++ [mkLine Log (str "Memory " ++ memoryId
                                        ++ str " updated in D1") None])
           (set_DB (rows_updated newContent memoryId userId (DB w)) (called c w)))
  end.
Proof.
  unfold updateMemoryInD1, try_catch, bind; rewrite D1_run_update_eq.
  unfold settle; cbv zeta; destruct (next_fault w); [reflexivity|].
  cbn [meta changes].
  destruct (N.eqb (rows_matching memoryId userId (DB w)) 0); reflexivity.
Qed.

Lemma updateMemoryVector_eq (memoryId newContent userId : jsstring) (w : World) :
  updateMemoryVector memoryId newContent userId w =
  let w1 := called (AI_run newContent) w in
  match next_fault w with
  | Some e => (Thrown e, w1)
  | None =>
      match AI w newContent with
      | None => (Thrown (new_Error (str "Failed to generate vector embedding")), w1)
      | Some values =>
          let v := updated_vector memoryId newContent userId values in
          match next_fault w1 with
          | Some e => (Thrown e, called (VECTORIZE_upsert [v]) w1)
          | None =>
              (Returned tt,
               set_console
                 (console w ++ [mkLine Log (str "Vector for memory " ++ memoryId
                                              ++ str " (namespace " ++ userId
                                              ++ str ") updated.") None])
                 (set_VECTORIZE (upsert_one (VECTORIZE w) v)
                    (called (VECTORIZE_upsert [v]) w1)))
          end
      end
  end.
Proof.
  unfold updateMemoryVector, bind; rewrite generateEmbeddings_eq; cbv zeta.
  destruct (next_fault w); [reflexivity|].
  destruct (AI w newContent) as [values|]; [|reflexivity].
  rewrite Vectorize_upsert_eq; unfold settle.
  destruct (next_fault (called (AI_run newContent) w)); reflexivity.
Qed.

(** The console does not decide how [updateMemoryVector] settles, and
    [updateMemoryVector] does not write the table. *)
Lemma updateMemoryVector_set_console
  (memoryId newContent userId : jsstring) (l : list Line) (w : World) :
  fst (updateMemoryVector memoryId newContent userId (set_console l w))
  = fst (updateMemoryVector memoryId newContent userId w).
Proof.
  rewrite !updateMemoryVector_eq; cbv zeta; same_fault.
  cbn [AI set_console].
  destruct (next_fault w); [reflexivity|].
  destruct (AI w newContent); [|reflexivity].
  change (next_fault (called (AI_run newContent) (set_console l w)))
    with (next_fault (called (AI_run newContent) w)).
  destruct (next_fault (called (AI_run newContent) w)); reflexivity.
Qed.

Lemma updateMemoryVector_DB
  (memoryId newContent userId : jsstring) (w : World) :
  DB (snd (updateMemoryVector memoryId newContent userId w)) = DB w.
Proof.
  rewrite updateMemoryVector_eq; cbv zeta.
  destruct (next_fault w); [reflexivity|].
  destruct (AI w newContent); [|reflexivity].
  destruct (next_fault (called (AI_run newContent) w)); reflexivity.
Qed.

(** C4. When the UPDATE statement of the Record Store reports that it
    changed no row (or reports no [meta] at all), the PUT route answers 404
    with [success: false] and the message of [updateMemoryInD1], which
    contains "not found"; the table and the index are as they were and the
    statement is the only call made.  A failure of
    the store whose message does not contain "not found" is answered 500:
    the two are told apart, and neither is a success. *)
Theorem update_zero_rows_is_not_found
  (userId memoryId : jsstring) (v : value) (s : jsstring) (w w1 : World)
  (result : D1Result) :
  get v (str "content") = Some (VString s) -> trim s <> [] ->
  D1_run_update (trim s) memoryId userId w = (Returned result, w1) ->
  match meta result with Some m => changes m = 0%N | None => True end ->
  (exists w',
      app_put userId memoryId (Returned v) w
      = (Returned (mkResponse 404 false
                     (Some (not_found_message memoryId userId))), w')
      /\ DB w' = DB w /\ VECTORIZE w' = VECTORIZE w
      /\ calls w' = calls w ++ [DB_update (trim s) memoryId userId])
  /\ includes (not_found_message memoryId userId) (str "not found") = true
  /\ (forall (e : Error) (w0 : World),
         next_fault w0 = Some e ->
         includes (or_else (message e) (str "Failed to update memory"))
           (str "not found") = false ->
         exists w0',
           app_put userId memoryId (Returned v) w0
           = (Returned (mkResponse 500 false
                          (Some (or_else (message e)
                                   (str "Failed to update memory")))), w0')).
Proof.
  intros Hget Hne Hrun Hzero; split; [|split].
  - unfold app_put, bind; rewrite (read_updatedContent_valid v s w Hget Hne).
    unfold updateMemoryInD1, try_catch, bind; rewrite Hrun.
    assert (Hthrow :
      (match meta result with
       | Some m =>
           if N.eqb (changes m) 0
           then throw (new_Error (not_found_message memoryId userId))
           else console_log (str "Memory " ++ memoryId ++ str " updated in D1")
       | None => throw (new_Error (not_found_message memoryId userId))
       end) w1 = (Thrown (new_Error (not_found_message memoryId userId)), w1)).
    { destruct (meta result) as [m|]; [rewrite Hzero|]; reflexivity. }
    rewrite Hthrow; unfold console_error, throw.
    change (or_else (message (new_Error (not_found_message memoryId userId)))
              (str "Failed to update memory"))
      with (not_found_message memoryId userId).
    cbv zeta; rewrite not_found_message_includes.
    eexists; split; [reflexivity|].
    rewrite D1_run_update_eq in Hrun; unfold settle in Hrun.
    destruct (next_fault w); [discriminate|].
    injection Hrun as <- <-; cbn in Hzero |- *.
    pose proof (proj1 (rows_matching_zero _ _ _) Hzero) as Hnone.
    rewrite (rows_updated_none _ _ _ _ Hnone); repeat split.
  - apply not_found_message_includes.
  - intros e w0 Hfault Hother.
    unfold app_put, bind; rewrite (read_updatedContent_valid v s w0 Hget Hne).
    unfold try_catch at 1; cbv beta.
    rewrite updateMemoryInD1_eq; cbv zeta; rewrite Hfault.
    unfold console_error, ret, bind; cbv zeta; rewrite Hother.
    eexists; reflexivity.
Qed.

Lemma update_zero_rows_is_not_found_witness :
  exists w',
    app_put Scenario.bob (Scenario.ids 0) (Scenario.body_with (str " decaf "))
      Scenario.two_users
    = (Returned (mkResponse 404 false
                   (Some (str "Memory with ID id-0 not found for user bob or content unchanged."))),
       w').
Proof.
  assert (Hrun : fst (D1_run_update (trim (str " decaf ")) (Scenario.ids 0)
                        Scenario.bob Scenario.two_users)
                 = Returned (mkResult (Some (mkMeta 0))))
    by (vm_compute; reflexivity).
  destruct (update_zero_rows_is_not_found Scenario.bob (Scenario.ids 0)
              (VObject [(str "content", VString (str " decaf "))])
              (str " decaf ") Scenario.two_users _ _ eq_refl
              ltac:(vm_compute; discriminate) (run_eq _ _ _ Hrun) eq_refl)
    as ((w' & H & _) & _).
  exists w'; exact H.
Defined.

(** C7. When [updateMemoryInD1] succeeds and [updateMemoryVector] then
    fails, the PUT route leaves the table as the UPDATE statement wrote it,
    with the new content in the row of the record; the failure goes to the
    console and the route still answers 200. *)
Theorem update_keeps_record_when_vector_fails
  (userId memoryId : jsstring) (v : value) (s : jsstring) (w w1 : World)
  (e : Error) :
  get v (str "content") = Some (VString s) -> trim s <> [] ->
  updateMemoryInD1 memoryId userId (trim s) w = (Returned tt, w1) ->
  fst (updateMemoryVector memoryId (trim s) userId w1) = Thrown e ->
  exists w',
    app_put userId memoryId (Returned v) w
    = (Returned (mkResponse 200 true None), w')
    /\ DB w' = DB w1
    /\ DB w1 = rows_updated (trim s) memoryId userId (DB w)
    /\ (exists r, In r (DB w') /\ row_id r = memoryId /\ row_userId r = userId
                  /\ row_content r = trim s)
    /\ In (mkLine Err (str "Failed to update vector " ++ memoryId
                         ++ str " for user " ++ userId ++ str " in Vectorize:")
             (Some e)) (console w').
Proof.
  intros Hget Hne Hrec Hvec.
  unfold app_put, bind; rewrite (read_updatedContent_valid v s w Hget Hne).
  unfold try_catch at 1, bind; rewrite Hrec.
  unfold console_log at 1, try_catch, bind.
  pose proof (updateMemoryVector_set_console memoryId (trim s) userId
    (console w1 ++ [mkLine Log (str "Updated memory " ++ memoryId
        ++ str " for user " ++ userId ++ str " in D1.") None]) w1) as Hsame.
  rewrite Hvec in Hsame.
  pose proof (updateMemoryVector_DB memoryId (trim s) userId
    (set_console (console w1 ++ [mkLine Log (str "Updated memory " ++ memoryId
        ++ str " for user " ++ userId ++ str " in D1.") None]) w1)) as HDB.
  destruct (updateMemoryVector memoryId (trim s) userId (set_console _ w1))
    as [o w2].
  cbn [fst snd] in Hsame, HDB; subst o.
  unfold console_error, ret.
  rewrite updateMemoryInD1_eq in Hrec; cbv zeta in Hrec.
  destruct (next_fault w); [discriminate|].
  destruct (N.eqb (rows_matching memoryId userId (DB w)) 0) eqn:Hrows;
    [discriminate|].
  injection Hrec as <-.
  eexists; split; [reflexivity|]; cbn in HDB |- *.
  repeat split; try assumption.
  - (* a row of the record carries the new content *)
    rewrite HDB.
    apply N.eqb_neq in Hrows; unfold rows_matching in Hrows.
    destruct (filter (row_matches memoryId userId) (DB w)) as [|r rs] eqn:Hf;
      [contradiction Hrows; reflexivity|].
    assert (Hr : In r (filter (row_matches memoryId userId) (DB w)))
      by (rewrite Hf; now left).
    apply filter_In in Hr as [Hin Hm].
    exists (mkRow (row_id r) (row_userId r) (trim s) (row_created_at r)).
    unfold row_matches in Hm; apply andb_true_iff in Hm as [Hi Hu].
    apply eqb_eq in Hi, Hu; cbn; repeat split; try assumption.
    unfold rows_updated; apply in_map_iff; exists r; split; [|assumption].
    unfold row_matches; rewrite Hi, Hu, !eqb_refl; reflexivity.
  - apply in_or_app; right; now left.
Qed.

Lemma update_keeps_record_when_vector_fails_witness :
  let w := Scenario.with_faults [None; Some Scenario.outage] Scenario.two_users in
  exists w',
    app_put Scenario.alice (Scenario.ids 0) (Scenario.body_with (str " decaf "))
      w
    = (Returned (mkResponse 200 true None), w')
    /\ (exists r, In r (DB w') /\ row_id r = Scenario.ids 0
                  /\ row_userId r = Scenario.alice
                  /\ row_content r = trim (str " decaf ")).
Proof.
  intros w.
  assert (Hrec : fst (updateMemoryInD1 (Scenario.ids 0) Scenario.alice
                        (trim (str " decaf ")) w) = Returned tt)
    by (vm_compute; reflexivity).
  destruct (update_keeps_record_when_vector_fails Scenario.alice (Scenario.ids 0)
              (VObject [(str "content", VString (str " decaf "))])
              (str " decaf ") w _ Scenario.outage eq_refl
              ltac:(vm_compute; discriminate) (run_eq _ _ _ Hrec)
              ltac:(vm_compute; reflexivity))
    as (w' & H & _ & _ & Hrow & _).
  exists w'; split; assumption.
Defined.

(** *** The middleware *)

Lemma app_use_eq {A} (next : M A) (w : World) :
  app_use next w = next (initialised w).
Proof.
  unfold initialised, app_use, bind.
  destruct (dbInitialized w); [reflexivity|].
  unfold initializeDatabase, D1_exec_create_table, try_catch, bind, call,
    console_log, console_error, ret, throw; same_fault.
  destruct (next_fault w); reflexivity.
Qed.

Lemma initialised_stores (w : World) :
  DB (initialised w) = DB w
  /\ VECTORIZE (initialised w) = VECTORIZE w
  /\ calls (initialised w)
     = calls w ++ (if dbInitialized w then [] else [DB_exec_create_table]).
Proof.
  unfold initialised, app_use, bind.
  destruct (dbInitialized w); [cbn; now rewrite app_nil_r|].
  unfold initializeDatabase, D1_exec_create_table, try_catch, bind, call,
    console_log, console_error, ret, throw; same_fault.
  destruct (next_fault w); cbn; repeat split.
Qed.

(** C8. A PUT whose body has the empty string as content is answered 400,
    "Invalid or missing content in request body", and the route leaves the
    world untouched.  With the middleware before it, both stores are as
    they were and the only call a binding may have received is the
    creation of the table. *)
Theorem update_empty_content_rejected
  (userId memoryId : jsstring) (v : value) (w : World) :
  get v (str "content") = Some (VString []) ->
  app_put userId memoryId (Returned v) w = (Returned invalid_content, w)
  /\ exists w',
      app_use (app_put userId memoryId (Returned v)) w
      = (Returned (mkResponse 400 false
                     (Some (str "Invalid or missing content in request body"))), w')
      /\ DB w' = DB w /\ VECTORIZE w' = VECTORIZE w
      /\ (forall c, In c (calls w') -> In c (calls w) \/ c = DB_exec_create_table).
Proof.
  intros Hget.
  assert (Hput : forall w0,
             app_put userId memoryId (Returned v) w0 = (Returned invalid_content, w0)).
  { intros w0; unfold app_put, bind.
    rewrite (read_updatedContent_blank v [] w0 Hget eq_refl); reflexivity. }
  split; [apply Hput|].
  exists (initialised w); rewrite app_use_eq, Hput.
  destruct (initialised_stores w) as (HD & HV & HC).
  repeat split; try assumption.
  intros c Hc; rewrite HC in Hc; apply in_app_or in Hc as [Hc|Hc]; [now left|].
  destruct (dbInitialized w); [contradiction|].
  destruct Hc as [<-|[]]; now right.
Qed.

Lemma update_empty_content_rejected_witness :
  app_put Scenario.alice (Scenario.ids 0) (Scenario.body_with [])
    Scenario.two_users
  = (Returned invalid_content, Scenario.two_users).
Proof.
  exact (proj1 (update_empty_content_rejected Scenario.alice (Scenario.ids 0)
                  (VObject [(str "content", VString [])]) Scenario.two_users
                  eq_refl)).
Defined.

Lemma in_upsert_one (vs : list VectorizeVector) (v x : VectorizeVector) :
  In x (upsert_one vs v) -> In x vs \/ x = v.
Proof.
  unfold upsert_one; intros H; apply in_app_or in H as [H|[<-|[]]].
  - apply filter_In in H as [H _]; now left.
  - now right.
Qed.

(** C10. For a PUT whose body has a string as content: [trim] removes
    white space at both ends of it and nothing else; a content of white
    space only is answered exactly as the empty content is, with 400; any
    other content reaches the table and the index trimmed. *)
Theorem update_stores_trimmed_content
  (userId memoryId : jsstring) (v : value) (s : jsstring) (w : World) :
  get v (str "content") = Some (VString s) ->
  (exists lead trail,
      s = lead ++ trim s ++ trail
      /\ forallb isWhiteSpace lead = true
      /\ forallb isWhiteSpace trail = true
      /\ (forall c r, trim s = c :: r -> isWhiteSpace c = false)
      /\ (forall c r, trim s = r ++ [c] -> isWhiteSpace c = false))
  /\ (forallb isWhiteSpace s = true ->
      app_put userId memoryId (Returned v) w
      = (Returned (mkResponse 400 false
                     (Some (str "Invalid or missing content in request body"))), w)
      /\ app_put userId memoryId (Returned v) w
         = app_put userId memoryId
             (Returned (VObject [(str "content", VString [])])) w)
  /\ (forallb isWhiteSpace s = false ->
      let w' := snd (app_put userId memoryId (Returned v) w) in
      (exists rest, calls w' = calls w ++ DB_update (trim s) memoryId userId :: rest)
      /\ DB w' = match next_fault w with
                 | None => rows_updated (trim s) memoryId userId (DB w)
                 | Some _ => DB w
                 end
      /\ (forall x, In x (VECTORIZE w') ->
                    In x (VECTORIZE w)
                    \/ exists values,
                         x = mkVector memoryId values userId
                               (Some (VObject [(str "content", VString (trim s))])))).
Proof.
  intros Hget; split; [apply trim_spec|]; split.
  - intros Hblank; apply trim_empty_iff in Hblank.
    unfold app_put, bind.
    rewrite (read_updatedContent_blank v s w Hget Hblank).
    split; reflexivity.
  - intros Hsome.
    assert (Hne : trim s <> []).
    { intros E; apply trim_empty_iff in E; congruence. }
    cbv zeta.
    remember (app_put userId memoryId (Returned v) w) as p eqn:Hp.
    unfold app_put, bind in Hp.
    rewrite (read_updatedContent_valid v s w Hget Hne) in Hp.
    unfold try_catch at 1 in Hp; cbv beta in Hp.
    rewrite updateMemoryInD1_eq in Hp; cbv zeta in Hp.
    destruct (next_fault w) as [e|].
    { unfold console_error, ret in Hp.
      destruct (includes _ (str "not found")); subst p; cbn;
        (split; [eexists; reflexivity|split; [reflexivity|tauto]]). }
    destruct (N.eqb (rows_matching memoryId userId (DB w)) 0).
    { unfold console_error, ret in Hp.
      destruct (includes _ (str "not found")); subst p; cbn;
        (split; [eexists; reflexivity|split; [reflexivity|tauto]]). }
    unfold bind, console_log at 1, try_catch in Hp.
    rewrite updateMemoryVector_eq in Hp; cbv zeta in Hp.
    rewrite ?next_fault_set_console, ?next_fault_set_DB in Hp.
    cbn [AI set_console set_DB called set_faults set_calls] in Hp.
    destruct (next_fault (called _ _)) as [e|].
    { unfold console_error, ret in Hp; subst p; cbn.
      rewrite <- !app_assoc.
      split; [eexists; reflexivity|split; [reflexivity|tauto]]. }
    destruct (AI w (trim s)) as [values|].
    2:{ unfold console_error, ret in Hp; subst p; cbn.
        rewrite <- !app_assoc.
        split; [eexists; reflexivity|split; [reflexivity|tauto]]. }
    match type of Hp with
    | context [match next_fault ?x with _ => _ end] =>
        destruct (next_fault x) as [e|]
    end.
    { unfold console_error, ret in Hp; subst p; cbn.
      rewrite <- !app_assoc.
      split; [eexists; reflexivity|split; [reflexivity|tauto]]. }
    unfold console_log, ret in Hp; subst p; cbn.
    rewrite <- !app_assoc.
    split; [eexists; reflexivity|split; [reflexivity|]].
    intros x Hx.
    apply (in_upsert_one (VECTORIZE w)
             (updated_vector memoryId (trim s) userId values)) in Hx
      as [Hx| ->]; [now left|right; now exists values].
Qed.

Lemma update_stores_trimmed_content_witness :
  DB (snd (app_put Scenario.alice (Scenario.ids 0)
             (Scenario.body_with (str " decaf ")) Scenario.two_users))
  = rows_updated (trim (str " decaf ")) (Scenario.ids 0) Scenario.alice
      (DB Scenario.two_users).
Proof.
  destruct (update_stores_trimmed_content Scenario.alice (Scenario.ids 0)
              (VObject [(str "content", VString (str " decaf "))])
              (str " decaf ") Scenario.two_users eq_refl)
    as (_ & _ & Hstored).
  destruct (Hstored ltac:(vm_compute; reflexivity)) as (_ & HDB & _).
  exact HDB.
Defined.

(** * Further properties *)

(** ** Frames: what a computation leaves as it was *)

Section FrameRules.
Variable R : World -> World -> Prop.
Hypothesis HR : Frame R.

Lemma frame_refl (w : World) : R w w.
Proof. apply (frame_same HR); reflexivity. Qed.

Lemma keeps_ret {A} (a : A) : keeps R (ret a).
Proof. intros w; apply frame_refl. Qed.

Lemma keeps_throw {A} (e : Error) : keeps R (@throw A e).
Proof. intros w; apply frame_refl. Qed.

Lemma keeps_bind {A B} (c : M A) (k : A -> M B) :
  keeps R c -> (forall a, keeps R (k a)) -> keeps R (bind c k).
Proof.
  intros Hc Hk w; unfold bind.
  specialize (Hc w); destruct (c w) as [[a|e] w1]; cbn [snd] in *.
  - apply (frame_trans HR _ w1); [exact Hc|apply Hk].
  - exact Hc.
Qed.

Lemma keeps_try_catch {A} (c : M A) (h : Error -> M A) :
  keeps R c -> (forall e, keeps R (h e)) -> keeps R (try_catch c h).
Proof.
  intros Hc Hh w; unfold try_catch.
  specialize (Hc w); destruct (c w) as [[a|e] w1]; cbn [snd] in *.
  - exact Hc.
  - apply (frame_trans HR _ w1); [exact Hc|apply Hh].
Qed.

Lemma keeps_console_log (t : jsstring) : keeps R (console_log t).
Proof. intros w; apply (frame_same HR); reflexivity. Qed.

Lemma keeps_console_error (t : jsstring) (e : Error) : keeps R (console_error t e).
Proof. intros w; apply (frame_same HR); reflexivity. Qed.

Lemma keeps_uuidv4 : keeps R uuidv4.
Proof. intros w; apply (frame_same HR); reflexivity. Qed.

(** A call keeps what its effect keeps. *)
Lemma keeps_call {A} (c : Call) (effect : M A) :
  keeps R effect -> keeps R (call c effect).
Proof.
  intros He w; unfold call.
  destruct (next_fault w).
  - apply (frame_same HR); reflexivity.
  - apply (frame_trans HR _ (called c w)); [|apply He].
    apply (frame_same HR); reflexivity.
Qed.

Lemma keeps_generateEmbeddings (t : jsstring) : keeps R (generateEmbeddings t).
Proof.
  unfold generateEmbeddings, AI_run_data0.
  apply keeps_bind.
  - apply keeps_call; intros w; apply frame_refl.
  - intros [v|]; [apply keeps_ret|apply keeps_throw].
Qed.

Lemma keeps_Vectorize_query (qv : list float) (ns : jsstring) (k : nat) :
  keeps R (Vectorize_query qv ns k).
Proof. apply keeps_call; intros w; apply frame_refl. Qed.

Lemma keeps_searchMemories (q ns : jsstring) : keeps R (searchMemories q ns).
Proof.
  unfold searchMemories.
  apply keeps_bind; [apply keeps_generateEmbeddings|intros qv].
  apply keeps_bind; [apply keeps_Vectorize_query|intros res].
  destruct (matches res) as [ms|]; [|apply keeps_ret].
  destruct (Nat.eqb (List.length ms) 0); apply keeps_ret.
Qed.

(** [addToMCPMemory] changes the world through its upsert and its insert
    only. *)
Lemma keeps_addToMCPMemory (ns content : jsstring) :
  (forall vs, keeps R (Vectorize_upsert vs)) ->
  (forall id, keeps R (D1_run_insert id ns content)) ->
  keeps R (addToMCPMemory ns content).
Proof.
  intros Hups Hins; unfold addToMCPMemory.
  apply keeps_try_catch.
  - apply keeps_bind.
    + unfold storeMemory.
      apply keeps_bind; [apply keeps_uuidv4|intros id].
      apply keeps_bind; [apply keeps_generateEmbeddings|intros values].
      apply keeps_bind; [apply Hups|intros _; apply keeps_ret].
    + intros id; apply keeps_bind; [|intros _].
      * unfold storeMemoryInD1.
        apply keeps_bind; [apply keeps_ret|intros id'].
        apply keeps_try_catch.
        -- apply keeps_bind; [apply Hins|intros _].
           apply keeps_bind; [apply keeps_console_log|intros _; apply keeps_ret].
        -- intros e; apply keeps_bind; [apply keeps_console_error|intros _].
           apply keeps_throw.
      * apply keeps_bind; [apply keeps_console_log|intros _; apply keeps_ret].
  - intros e; apply keeps_bind; [apply keeps_console_error|intros _].
    apply keeps_ret.
Qed.

(** The DELETE route changes the world through its DELETE statement and
    its [deleteByIds] only. *)
Lemma keeps_app_delete (userId memoryId : jsstring) :
  keeps R (D1_run_delete memoryId userId) ->
  keeps R (Vectorize_deleteByIds [memoryId]) ->
  keeps R (app_delete userId memoryId).
Proof.
  intros Hdel Hvec; unfold app_delete.
  apply keeps_try_catch.
  - apply keeps_bind.
    + unfold deleteMemoryFromD1; apply keeps_try_catch.
      * apply keeps_bind; [exact Hdel|intros _; apply keeps_console_log].
      * intros e; apply keeps_bind; [apply keeps_console_error|intros _].
        apply keeps_throw.
    + intros _; apply keeps_bind; [apply keeps_console_log|intros _].
      apply keeps_bind; [|intros _; apply keeps_ret].
      apply keeps_try_catch; [|intros e; apply keeps_console_error].
      apply keeps_bind; [|intros _; apply keeps_console_log].
      unfold deleteVectorById; apply keeps_try_catch.
      * apply keeps_bind; [exact Hvec|intros _; apply keeps_console_log].
      * intros e; apply keeps_bind; [apply keeps_console_error|intros _].
        apply keeps_throw.
  - intros e; apply keeps_bind; [apply keeps_console_error|intros _].
    apply keeps_ret.
Qed.

Lemma keeps_read_updatedContent (body : outcome value) :
  keeps R (read_updatedContent body).
Proof.
  unfold read_updatedContent; apply keeps_try_catch.
  - apply keeps_bind; [intros w; apply frame_refl|intros v].
    destruct (if truthy v then get v (str "content") else None) as [[]|];
      try apply keeps_ret.
    destruct (Js.eqb (trim s) []); apply keeps_ret.
  - intros e; apply keeps_bind; [apply keeps_console_error|intros _].
    apply keeps_ret.
Qed.

(** The PUT route changes the world through its UPDATE statement and its
    upsert only. *)
Lemma keeps_app_put (userId memoryId : jsstring) (body : outcome value) :
  (forall content, keeps R (D1_run_update content memoryId userId)) ->
  (forall vs, keeps R (Vectorize_upsert vs)) ->
  keeps R (app_put userId memoryId body).
Proof.
  intros Hupd Hups; unfold app_put.
  apply keeps_bind; [apply keeps_read_updatedContent|intros [resp|content]].
  { apply keeps_ret. }
  apply keeps_try_catch.
  - apply keeps_bind.
    + unfold updateMemoryInD1; apply keeps_try_catch.
      * apply keeps_bind; [apply Hupd|intros res].
        destruct (meta res) as [m|]; [|apply keeps_throw].
        destruct (N.eqb (changes m) 0); [apply keeps_throw|apply keeps_console_log].
      * intros e; apply keeps_bind; [apply keeps_console_error|intros _].
        apply keeps_throw.
    + intros _; apply keeps_bind; [apply keeps_console_log|intros _].
      apply keeps_bind; [|intros _; apply keeps_ret].
      apply keeps_try_catch; [|intros e; apply keeps_console_error].
      apply keeps_bind; [|intros _; apply keeps_console_log].
      unfold updateMemoryVector.
      apply keeps_bind; [apply keeps_generateEmbeddings|intros values].
      apply keeps_bind; [apply Hups|intros _; apply keeps_console_log].
  - intros e; apply keeps_bind; [apply keeps_console_error|intros _].
    cbv zeta.
    destruct (includes _ (str "not found")); apply keeps_ret.
Qed.

Lemma keeps_searchMCPMemory (toFixed4 : float -> jsstring) (u q : jsstring) :
  keeps R (searchMCPMemory toFixed4 u q).
Proof.
  unfold searchMCPMemory; apply keeps_try_catch.
  - apply keeps_bind; [apply keeps_console_log|intros _].
    apply keeps_bind; [apply keeps_searchMemories|intros ms].
    apply keeps_bind; [apply keeps_console_log|intros _].
    destruct (Nat.ltb 0 (List.length ms)); apply keeps_ret.
  - intros e; apply keeps_bind; [apply keeps_console_error|intros _].
    apply keeps_ret.
Qed.

End FrameRules.


(** ** What the operations leave alone *)

Lemma Frame_same_stores : Frame same_stores.
Proof.
  split.
  - intros w w' HD HV _ _ _ _; split; assumption.
  - intros a b c [H1 H2] [H3 H4]; split; congruence.
Qed.

Lemma Frame_same_bindings : Frame same_bindings.
Proof.
  split.
  - intros w w' _ _ ? ? ? ?; repeat split; assumption.
  - intros a b c (?&?&?&?) (?&?&?&?); repeat split; congruence.
Qed.

Lemma Frame_stays_unique : Frame stays_unique.
Proof.
  split.
  - intros w w' HD HV _ _ _ _ [H1 H2]; split; congruence.
  - intros a b c H1 H2 H; apply H2, H1, H.
Qed.

Lemma Frame_rows_untouched (touched : Row -> bool) :
  Frame (rows_untouched touched).
Proof.
  split.
  - intros w w' HD _ _ _ _ _ r Hr _; now rewrite HD.
  - intros a b c H1 H2 r Hr Ht; apply H2; [apply H1|]; assumption.
Qed.

Lemma Frame_no_new_rows : Frame no_new_rows.
Proof.
  split.
  - intros w w' HD _ _ _ _ _; unfold no_new_rows; rewrite HD; apply incl_refl.
  - intros a b c H1 H2; eapply incl_tran; eassumption.
Qed.

Lemma Frame_and (R1 R2 : World -> World -> Prop) :
  Frame R1 -> Frame R2 -> Frame (fun w w' => R1 w w' /\ R2 w w').
Proof.
  intros F1 F2; split.
  - intros w w' ? ? ? ? ? ?; split; [apply (frame_same F1)|apply (frame_same F2)];
      assumption.
  - intros a b c [H1 H2] [H3 H4]; split;
      [apply (frame_trans F1 _ b)|apply (frame_trans F2 _ b)]; assumption.
Qed.

Lemma Frame_same_rows_but_content : Frame same_rows_but_content.
Proof.
  split.
  - intros w w' HD _ _ _ _ _; unfold same_rows_but_content; now rewrite HD.
  - unfold same_rows_but_content; intros a b c H1 H2; congruence.
Qed.

(** The writes of the bindings, one relation at a time. *)

Lemma upsert_same_bindings (vs : list VectorizeVector) :
  keeps same_bindings (Vectorize_upsert vs).
Proof. intros w; rewrite Vectorize_upsert_eq; destruct (next_fault w); repeat split. Qed.

Lemma insert_same_bindings (id u c : jsstring) :
  keeps same_bindings (D1_run_insert id u c).
Proof.
  intros w; rewrite D1_run_insert_eq; destruct (next_fault w); [repeat split|].
  destruct (existsb _ (DB w)); repeat split.
Qed.


(** *** Reads *)

(** X1. [searchMemories] writes nothing: however it settles, the table and
    the index are as they were. *)
Theorem search_changes_no_store (query ns : jsstring) (w : World) :
  DB (snd (searchMemories query ns w)) = DB w
  /\ VECTORIZE (snd (searchMemories query ns w)) = VECTORIZE w.
Proof. exact (keeps_searchMemories same_stores Frame_same_stores query ns w). Qed.

(** *** The table under the routes *)

Lemma rows_updated_ids (c id u : jsstring) (rows : list Row) :
  map (fun r => (row_id r, row_userId r, row_created_at r))
    (rows_updated c id u rows)
  = map (fun r => (row_id r, row_userId r, row_created_at r)) rows.
Proof.
  unfold rows_updated; rewrite map_map; apply map_ext.
  intros r; now destruct (row_matches id u r).
Qed.

Lemma rows_updated_untouched (c id u : jsstring) (rows : list Row) (r : Row) :
  In r rows -> row_matches id u r = false -> In r (rows_updated c id u rows).
Proof.
  intros Hr Hm; unfold rows_updated; apply in_map_iff.
  exists r; now rewrite Hm.
Qed.

Lemma update_rewrites_content_only (c id u : jsstring) :
  keeps (fun w w' => rows_untouched (row_matches id u) w w'
                     /\ same_rows_but_content w w')
    (D1_run_update c id u).
Proof.
  intros w; rewrite D1_run_update_eq.
  destruct (next_fault w); cbn [snd]; split.
  - intros r Hr _; exact Hr.
  - reflexivity.
  - intros r Hr Hm; now apply rows_updated_untouched.
  - apply rows_updated_ids.
Qed.

(** Writes to the index keep what is said of the table, and writes to
    the table keep what is said of the index. *)
Lemma upsert_keeps_table (R : World -> World -> Prop) (vs : list VectorizeVector) :
  (forall w w', DB w' = DB w -> R w w') -> keeps R (Vectorize_upsert vs).
Proof.
  intros HR w; apply HR; rewrite Vectorize_upsert_eq.
  now destruct (next_fault w).
Qed.

Lemma deleteByIds_keeps_table (R : World -> World -> Prop) (ids : list jsstring) :
  (forall w w', DB w' = DB w -> R w w') -> keeps R (Vectorize_deleteByIds ids).
Proof.
  intros HR w; apply HR; rewrite Vectorize_deleteByIds_eq.
  now destruct (next_fault w).
Qed.

(** X10. Whatever the body and whatever happens, the PUT route leaves the
    rows of other ids and users as they were, and the id, the user and the
    creation time of every row. *)
Theorem put_rewrites_content_only
  (userId memoryId : jsstring) (body : outcome value) (w : World) :
  let w' := snd (app_put userId memoryId body w) in
  (forall r, In r (DB w) -> row_matches memoryId userId r = false -> In r (DB w'))
  /\ map (fun r => (row_id r, row_userId r, row_created_at r)) (DB w')
     = map (fun r => (row_id r, row_userId r, row_created_at r)) (DB w).
Proof.
  apply (keeps_app_put
           (fun w w' => rows_untouched (row_matches memoryId userId) w w'
                        /\ same_rows_but_content w w')).
  - apply Frame_and; [apply Frame_rows_untouched|apply Frame_same_rows_but_content].
  - intros c; apply update_rewrites_content_only.
  - intros vs; apply upsert_keeps_table.
    intros a b H; split.
    + intros r Hr _; now rewrite H.
    + unfold same_rows_but_content; now rewrite H.
Qed.

Lemma put_rewrites_content_only_witness :
  In (mkRow (Scenario.ids 1) Scenario.bob Scenario.tea 1700000000)
    (DB (snd (app_put Scenario.alice (Scenario.ids 0)
                (Scenario.body_with (str " decaf ")) Scenario.two_users))).
Proof.
  apply (proj1 (put_rewrites_content_only Scenario.alice (Scenario.ids 0)
                  (Scenario.body_with (str " decaf ")) Scenario.two_users)).
  - right; left; reflexivity.
  - vm_compute; reflexivity.
Defined.

Lemma delete_removes_its_rows_only (id u : jsstring) :
  keeps (fun w w' => rows_untouched (row_matches id u) w w' /\ no_new_rows w w')
    (D1_run_delete id u).
Proof.
  intros w; rewrite D1_run_delete_eq.
  destruct (next_fault w); cbn [snd]; split.
  - intros r Hr _; exact Hr.
  - apply incl_refl.
  - intros r Hr Hm; apply filter_In; split; [exact Hr|now rewrite Hm].
  - intros r Hr; apply filter_In in Hr; apply Hr.
Qed.

(** X9. Whatever happens, the DELETE route removes no row but those of its
    id and user, and adds none. *)
Theorem delete_removes_its_rows_and_no_other
  (userId memoryId : jsstring) (w : World) :
  let w' := snd (app_delete userId memoryId w) in
  (forall r, In r (DB w) -> row_matches memoryId userId r = false -> In r (DB w'))
  /\ (forall r, In r (DB w') -> In r (DB w)).
Proof.
  apply (keeps_app_delete
           (fun w w' => rows_untouched (row_matches memoryId userId) w w'
                        /\ no_new_rows w w')).
  - apply Frame_and; [apply Frame_rows_untouched|apply Frame_no_new_rows].
  - apply delete_removes_its_rows_only.
  - apply deleteByIds_keeps_table.
    intros a b H; split.
    + intros r Hr _; now rewrite H.
    + unfold no_new_rows; rewrite H; apply incl_refl.
Qed.

Lemma delete_removes_its_rows_and_no_other_witness :
  In (mkRow (Scenario.ids 1) Scenario.bob Scenario.tea 1700000000)
    (DB (snd (app_delete Scenario.alice (Scenario.ids 0) Scenario.two_users))).
Proof.
  apply (proj1 (delete_removes_its_rows_and_no_other Scenario.alice (Scenario.ids 0)
                  Scenario.two_users)).
  - right; left; reflexivity.
  - vm_compute; reflexivity.
Defined.

(** *** Unique ids *)

Lemma insert_stays_unique (id u c : jsstring) :
  keeps stays_unique (D1_run_insert id u c).
Proof.
  intros w; rewrite D1_run_insert_eq.
  destruct (next_fault w); [now intros H|].
  destruct (existsb _ (DB w)) eqn:E; [now intros H|].
  intros [HD HV]; split; [|exact HV]; cbn.
  rewrite map_app; apply NoDup_app; [exact HD|repeat constructor; simpl; tauto|].
  intros x Hx [<-|[]]. 
  apply in_map_iff in Hx as (r & Er & Hr).
  assert (existsb (fun r => Js.eqb (row_id r) id) (DB w) = true).
  { apply existsb_exists; exists r; split; [exact Hr|now apply eqb_eq]. }
  congruence.
Qed.

Lemma delete_stays_unique (id u : jsstring) :
  keeps stays_unique (D1_run_delete id u).
Proof.
  intros w; rewrite D1_run_delete_eq.
  destruct (next_fault w); [now intros H|].
  intros [HD HV]; split; [|exact HV]; cbn.
  unfold rows_deleted; induction (DB w) as [|r rows IH]; [constructor|].
  cbn in *; apply NoDup_cons_iff in HD as [Hr HD].
  destruct (row_matches id u r); cbn; [now apply IH|].
  apply NoDup_cons; [|now apply IH].
  intros Hin; apply Hr; apply in_map_iff in Hin as (r' & E & Hr').
  apply filter_In in Hr' as [Hr' _]; rewrite <- E; now apply in_map.
Qed.

Lemma update_stays_unique (c id u : jsstring) :
  keeps stays_unique (D1_run_update c id u).
Proof.
  intros w; rewrite D1_run_update_eq.
  destruct (next_fault w); [now intros H|].
  intros [HD HV]; split; [|exact HV]; cbn.
  replace (map row_id (rows_updated c id u (DB w))) with (map row_id (DB w));
    [exact HD|].
  unfold rows_updated; rewrite map_map; apply map_ext.
  intros r; now destruct (row_matches id u r).
Qed.

Lemma upsert_stays_unique (vs : list VectorizeVector) :
  keeps stays_unique (Vectorize_upsert vs).
Proof.
  intros w; rewrite Vectorize_upsert_eq.
  destruct (next_fault w); [now intros H|].
  intros [HD HV]; split; [exact HD|]; cbn; now apply upsert_unique.
Qed.

Lemma deleteByIds_stays_unique (ids : list jsstring) :
  keeps stays_unique (Vectorize_deleteByIds ids).
Proof.
  intros w; rewrite Vectorize_deleteByIds_eq.
  destruct (next_fault w); [now intros H|].
  intros [HD HV]; split; [exact HD|]; cbn; now apply deleteByIds_unique.
Qed.

(** X16. If no two rows share an id and no two vectors share an id, that is
    still so after [addToMCPMemory], the PUT route, the DELETE route and
    [searchMemories], however they settle. *)
Theorem ids_stay_unique (w : World) :
  unique_ids w ->
  (forall ns content, unique_ids (snd (addToMCPMemory ns content w)))
  /\ (forall userId memoryId body, unique_ids (snd (app_put userId memoryId body w)))
  /\ (forall userId memoryId, unique_ids (snd (app_delete userId memoryId w)))
  /\ (forall query ns, unique_ids (snd (searchMemories query ns w))).
Proof.
  intros H; split; [|split; [|split]].
  - intros ns text.
    exact (keeps_addToMCPMemory stays_unique Frame_stays_unique ns text
             upsert_stays_unique (fun id => insert_stays_unique id ns text) w H).
  - intros userId memoryId body.
    exact (keeps_app_put stays_unique Frame_stays_unique userId memoryId body
             (fun c => update_stays_unique c memoryId userId)
             upsert_stays_unique w H).
  - intros userId memoryId.
    exact (keeps_app_delete stays_unique Frame_stays_unique userId memoryId
             (delete_stays_unique memoryId userId)
             (deleteByIds_stays_unique [memoryId]) w H).
  - intros query ns.
    exact (keeps_searchMemories stays_unique Frame_stays_unique query ns w H).
Qed.

Lemma ids_stay_unique_witness :
  unique_ids (snd (addToMCPMemory Scenario.alice Scenario.tea Scenario.two_users)).
Proof.
  assert (H : unique_ids Scenario.two_users).
  { split; vm_compute; repeat constructor; simpl; intuition discriminate. }
  exact (proj1 (ids_stay_unique Scenario.two_users H) Scenario.alice Scenario.tea).
Defined.

(** ** Searching what the operations wrote *)

Lemma next_fault_called (c : Call) (w : World) :
  next_fault (called c w) = nth 1 (faults w) None.
Proof.
  unfold next_fault; cbn; destruct (faults w) as [|a [|b l]]; reflexivity.
Qed.

Lemma insert_length {A} (cmp : A -> A -> float) (x : A) (l : list A) :
  List.length (insert cmp x l) = S (List.length l).
Proof.
  induction l as [|y l IH]; simpl; [reflexivity|].
  destruct (0 <? cmp x y)%float; simpl; now rewrite ?IH.
Qed.

Lemma sort_length {A} (cmp : A -> A -> float) (l : list A) :
  List.length (sort cmp l) = List.length l.
Proof.
  induction l as [|x l IH]; simpl; [reflexivity|].
  now rewrite insert_length, IH.
Qed.

Lemma filter_length_le {A} (p : A -> bool) (l : list A) :
  List.length (filter p l) <= List.length l.
Proof.
  induction l as [|x l IH]; simpl; [lia|destruct (p x); simpl; lia].
Qed.

(** X2. [searchMemories] returns at most ten memories, the [topK] of its
    query. *)
Theorem search_returns_at_most_ten
  (query ns : jsstring) (w w' : World) (ms : list Memory) :
  searchMemories query ns w = (Returned ms, w') -> List.length ms <= 10.
Proof.
  intros H; apply searchMemories_matches in H as (qv & _ & ->).
  unfold memories_of, nearest.
  rewrite sort_length, length_map.
  etransitivity; [apply filter_length_le|].
  apply firstn_le_length.
Qed.

Lemma search_returns_at_most_ten_witness :
  List.length [mkMemory Scenario.coffee 1%float (Scenario.ids 0)] <= 10.
Proof.
  assert (Hrun : fst (searchMemories (str "coffee preference") Scenario.alice
                        Scenario.two_users)
                 = Returned [mkMemory Scenario.coffee 1%float (Scenario.ids 0)])
    by (vm_compute; reflexivity).
  exact (search_returns_at_most_ten _ _ _ _ _ (run_eq _ _ _ Hrun)).
Defined.

(** Under [topK] vectors in the namespace, the query returns them all. *)
Lemma nearest_all (w : World) (qv : list float) (ns : jsstring) (k : nat)
  (v : VectorizeVector) :
  List.length (filter (fun v => Js.eqb (vec_namespace v) ns) (VECTORIZE w)) <= k ->
  In v (VECTORIZE w) -> vec_namespace v = ns ->
  In (score_vector w qv v) (nearest w qv ns k).
Proof.
  intros Hk Hv Hns; unfold nearest.
  rewrite firstn_all2 by (now rewrite sort_length, length_map).
  apply in_sort, in_map, filter_In; split; [exact Hv|].
  now apply eqb_eq.
Qed.

Lemma search_returns_match
  (query ns : jsstring) (w : World) (qv : list float) (v : VectorizeVector) :
  next_fault w = None -> nth 1 (faults w) None = None ->
  AI w query = Some qv ->
  List.length (filter (fun v => Js.eqb (vec_namespace v) ns) (VECTORIZE w)) <= 10 ->
  In v (VECTORIZE w) -> vec_namespace v = ns ->
  (MINIMUM_SIMILARITY_SCORE <? metric w qv (vec_values v))%float = true ->
  exists ms w',
    searchMemories query ns w = (Returned ms, w')
    /\ In (memory_of_match (score_vector w qv v)) ms.
Proof.
  intros F0 F1 HAI Hk Hv Hns Hs.
  rewrite searchMemories_eq, F0, HAI; cbv zeta; unfold settle.
  rewrite next_fault_called, F1.
  eexists; eexists; split; [reflexivity|].
  apply in_memories_of; exists (score_vector w qv v); repeat split.
  - now apply (nearest_all (called (AI_run query) w) qv ns 10 v).
  - exact Hs.
Qed.

Lemma content_metadata_read (t : jsstring) (id : jsstring) (x : float) :
  (MINIMUM_SIMILARITY_SCORE <? x)%float = true ->
  memory_of_match (mkMatch id x (Some (content_metadata t))) = mkMemory t x id.
Proof.
  intros Hs; unfold memory_of_match; cbn [match_metadata match_score match_id].
  rewrite (above_threshold_truthy _ Hs); reflexivity.
Qed.

(** X3. When the model and the index answer and the namespace holds at
    most ten vectors, every vector of the namespace that scores above 0.5
    is returned, with its id, its score and the content of its metadata. *)
Theorem search_returns_every_good_vector
  (query ns text : jsstring) (w : World) (qv : list float) (v : VectorizeVector) :
  next_fault w = None -> nth 1 (faults w) None = None ->
  AI w query = Some qv ->
  List.length (filter (fun v => Js.eqb (vec_namespace v) ns) (VECTORIZE w)) <= 10 ->
  In v (VECTORIZE w) -> vec_namespace v = ns ->
  vec_metadata v = Some (content_metadata text) ->
  (0.5 <? metric w qv (vec_values v))%float = true ->
  exists ms w',
    searchMemories query ns w = (Returned ms, w')
    /\ In (mkMemory text (metric w qv (vec_values v)) (vec_id v)) ms.
Proof.
  intros F0 F1 HAI Hk Hv Hns Hmd Hs.
  destruct (search_returns_match query ns w qv v F0 F1 HAI Hk Hv Hns Hs)
    as (ms & w' & Hrun & Hin).
  exists ms, w'; split; [exact Hrun|].
  unfold score_vector in Hin; rewrite Hmd in Hin.
  now rewrite content_metadata_read in Hin.
Qed.

Lemma search_returns_every_good_vector_witness :
  exists ms w',
    searchMemories (str "coffee preference") Scenario.alice Scenario.two_users
    = (Returned ms, w')
    /\ In (mkMemory Scenario.coffee 1%float (Scenario.ids 0)) ms.
Proof.
  exact (search_returns_every_good_vector (str "coffee preference") Scenario.alice
           Scenario.coffee Scenario.two_users [1; 0]%float
           (mkVector (Scenario.ids 0) [1; 0]%float Scenario.alice
              (Some (content_metadata Scenario.coffee)))
           ltac:(vm_compute; reflexivity) ltac:(vm_compute; reflexivity)
           ltac:(vm_compute; reflexivity) ltac:(vm_compute; lia)
           ltac:(left; reflexivity) ltac:(reflexivity) ltac:(reflexivity)
           ltac:(vm_compute; reflexivity)).
Defined.

(** X4. A match of the index that scores above 0.5 but carries no metadata
    is still returned: its content is the placeholder "Missing memory
    content (ID: ...)" with its id. *)
Theorem search_keeps_match_without_content
  (query ns : jsstring) (w : World) (qv : list float) (mt : VectorizeMatch) :
  next_fault w = None -> nth 1 (faults w) None = None ->
  AI w query = Some qv ->
  In mt (nearest w qv ns 10) ->
  match_metadata mt = None -> match_id mt <> [] ->
  (0.5 <? match_score mt)%float = true ->
  exists ms w',
    searchMemories query ns w = (Returned ms, w')
    /\ In (mkMemory (str "Missing memory content (ID: " ++ match_id mt ++ str ")")
             (match_score mt) (match_id mt)) ms.
Proof.
  intros F0 F1 HAI Hmt Hmd Hid Hs.
  rewrite searchMemories_eq, F0, HAI; cbv zeta; unfold settle.
  rewrite next_fault_called, F1.
  eexists; eexists; split; [reflexivity|].
  apply in_memories_of; exists mt.
  split; [exact Hmt|]; split; [exact Hs|].
  unfold memory_of_match; rewrite Hmd.
  change (MINIMUM_SIMILARITY_SCORE <? match_score mt)%float
    with (0.5 <? match_score mt)%float in Hs.
  rewrite (above_threshold_truthy _ Hs).
  apply eqb_neq in Hid; rewrite Hid; reflexivity.
Qed.

Lemma search_keeps_match_without_content_witness :
  exists ms w',
    searchMemories (str "coffee preference") Scenario.alice Cases.bare
    = (Returned ms, w')
    /\ In (mkMemory (str "Missing memory content (ID: " ++ Scenario.ids 7 ++ str ")")
             1%float (Scenario.ids 7)) ms.
Proof.
  exact (search_keeps_match_without_content (str "coffee preference")
           Scenario.alice Cases.bare [1; 0]%float
           (mkMatch (Scenario.ids 7) 1%float None)
           ltac:(vm_compute; reflexivity) ltac:(vm_compute; reflexivity)
           ltac:(vm_compute; reflexivity) ltac:(vm_compute; left; reflexivity)
           ltac:(reflexivity) ltac:(vm_compute; discriminate)
           ltac:(vm_compute; reflexivity)).
Defined.

Lemma nth_tl {A} (n : nat) (l : list A) (d : A) : nth n (tl l) d = nth (S n) l d.
Proof. destruct l; [now destruct n|reflexivity]. Qed.

Lemma filter_filter_length_le {A} (p q : A -> bool) (l : list A) :
  List.length (filter p (filter q l)) <= List.length (filter p l).
Proof.
  induction l as [|x l IH]; simpl; [lia|].
  destruct (q x), (p x) eqn:E; simpl; rewrite ?E; simpl; lia.
Qed.

(** X5. What [addToMCPMemory] has remembered is found again: a search of
    the same namespace whose query scores above 0.5 against the content
    returns the new id with the content, as long as the namespace held
    fewer than ten vectors and the bindings answer. *)
Theorem remember_then_search
  (ns content query : jsstring) (w w1 : World) (r : ToolResult)
  (qv values : list float) :
  addToMCPMemory ns content w = (Returned r, w1) ->
  text r = str "Remembered: " ++ content ->
  next_fault w1 = None -> nth 1 (faults w1) None = None ->
  AI w query = Some qv -> AI w content = Some values ->
  List.length (filter (fun v => Js.eqb (vec_namespace v) ns) (VECTORIZE w)) < 10 ->
  (0.5 <? metric w qv values)%float = true ->
  exists ms w2,
    searchMemories query ns w1 = (Returned ms, w2)
    /\ In (mkMemory content (metric w qv values) (uuid w (uuid_count w))) ms.
Proof.
  intros Hrun Htext F0 F1 Hq Hc Hroom Hs.
  destruct (addToMCPMemory_remembered ns content w w1 r Hrun Htext)
    as (values' & Hc' & _ & _ & _ & HV & _).
  assert (values' = values) by congruence; subst values'.
  pose proof (keeps_addToMCPMemory same_bindings Frame_same_bindings ns content
                upsert_same_bindings
                (fun id => insert_same_bindings id ns content) w) as Hb.
  rewrite Hrun in Hb; destruct Hb as (Hm & HA & _ & _); cbn [snd] in Hm, HA.
  destruct (search_returns_match query ns w1 qv (stored_vector w ns content values))
    as (ms & w2 & Hsearch & Hin); try assumption.
  - now rewrite HA.
  - rewrite HV; unfold upsert_one; rewrite filter_app, length_app.
    cbn [filter stored_vector vec_namespace]; rewrite eqb_refl; cbn [List.length].
    pose proof (filter_filter_length_le
                  (fun v => Js.eqb (vec_namespace v) ns)
                  (fun v' => negb (Js.eqb (vec_id v')
                                     (vec_id (stored_vector w ns content values))))
                  (VECTORIZE w)).
    cbn [stored_vector vec_id] in *; lia.
  - rewrite HV; unfold upsert_one; apply in_or_app; right; now left.
  - reflexivity.
  - now rewrite Hm.
  - exists ms, w2; split; [exact Hsearch|].
    unfold score_vector, stored_vector in Hin.
    cbn [vec_id vec_values vec_metadata] in Hin.
    rewrite Hm in Hin.
    now rewrite content_metadata_read in Hin.
Qed.

Lemma remember_then_search_witness :
  exists w1 ms w2,
    fst (addToMCPMemory Scenario.alice Scenario.coffee Scenario.fresh)
    = Returned (mkToolResult (str "Remembered: I like dark roast coffee"))
    /\ w1 = snd (addToMCPMemory Scenario.alice Scenario.coffee Scenario.fresh)
    /\ searchMemories (str "coffee preference") Scenario.alice w1 = (Returned ms, w2)
    /\ In (mkMemory Scenario.coffee 1%float (Scenario.ids 0)) ms.
Proof.
  assert (Hrun : fst (addToMCPMemory Scenario.alice Scenario.coffee Scenario.fresh)
                 = Returned (mkToolResult (str "Remembered: I like dark roast coffee")))
    by (vm_compute; reflexivity).
  destruct (remember_then_search Scenario.alice Scenario.coffee
              (str "coffee preference") Scenario.fresh _ _ [1; 0]%float [1; 0]%float
              (run_eq _ _ _ Hrun) ltac:(vm_compute; reflexivity)
              ltac:(vm_compute; reflexivity) ltac:(vm_compute; reflexivity)
              ltac:(vm_compute; reflexivity) ltac:(vm_compute; reflexivity)
              ltac:(vm_compute; lia) ltac:(vm_compute; reflexivity))
    as (ms & w2 & Hs & Hin).
  eexists; exists ms, w2.
  split; [exact Hrun|split; [reflexivity|split; [exact Hs|exact Hin]]].
Defined.

(** The PUT route when the statement and the upsert both take effect. *)
Lemma app_put_updates_both
  (userId memoryId : jsstring) (v : value) (s : jsstring) (w : World)
  (values : list float) :
  get v (str "content") = Some (VString s) -> trim s <> [] ->
  next_fault w = None -> rows_matching memoryId userId (DB w) <> 0%N ->
  nth 1 (faults w) None = None -> AI w (trim s) = Some values ->
  nth 2 (faults w) None = None ->
  exists w',
    app_put userId memoryId (Returned v) w
    = (Returned (mkResponse 200 true None), w')
    /\ DB w' = rows_updated (trim s) memoryId userId (DB w)
    /\ VECTORIZE w'
       = upsert_one (VECTORIZE w) (updated_vector memoryId (trim s) userId values)
    /\ metric w' = metric w /\ AI w' = AI w.
Proof.
  intros Hget Hne F0 Hrows F1 HAI F2.
  unfold app_put, bind; rewrite (read_updatedContent_valid v s w Hget Hne).
  unfold try_catch at 1; cbv beta.
  rewrite updateMemoryInD1_eq; cbv zeta; rewrite F0.
  apply N.eqb_neq in Hrows; rewrite Hrows.
  unfold bind, console_log at 1, try_catch.
  rewrite updateMemoryVector_eq; cbv zeta.
  rewrite ?next_fault_set_console, ?next_fault_set_DB, !next_fault_called.
  cbn [AI set_console set_DB called set_faults set_calls faults].
  rewrite F1, HAI, nth_tl, F2.
  eexists; split; [reflexivity|]; repeat split.
Qed.

(** X6. After a PUT whose UPDATE statement and upsert both took effect, the
    rows of the record carry the trimmed content, and no search returns
    another content for that id, or that id from another namespace. *)
Theorem update_then_search
  (userId memoryId : jsstring) (v : value) (s : jsstring) (w : World)
  (values : list float) :
  get v (str "content") = Some (VString s) -> trim s <> [] ->
  next_fault w = None -> rows_matching memoryId userId (DB w) <> 0%N ->
  nth 1 (faults w) None = None -> AI w (trim s) = Some values ->
  nth 2 (faults w) None = None ->
  exists w',
    app_put userId memoryId (Returned v) w
    = (Returned (mkResponse 200 true None), w')
    /\ (forall r, In r (DB w') -> row_matches memoryId userId r = true ->
                  row_content r = trim s)
    /\ (forall query ns ms w'' m,
           searchMemories query ns w' = (Returned ms, w'') ->
           In m ms -> id m = memoryId ->
           content m = trim s /\ ns = userId).
Proof.
  intros Hget Hne F0 Hrows F1 HAI F2.
  destruct (app_put_updates_both userId memoryId v s w values
              Hget Hne F0 Hrows F1 HAI F2) as (w' & Hrun & HD & HV & _).
  exists w'; split; [exact Hrun|]; split.
  - intros r Hr Hm; rewrite HD in Hr; unfold rows_updated in Hr.
    apply in_map_iff in Hr as (r0 & <- & _).
    destruct (row_matches memoryId userId r0) eqn:E; [reflexivity|congruence].
  - intros query ns ms w'' m Hsearch Hm Hid.
    apply searchMemories_matches in Hsearch as (qv & _ & ->).
    apply in_memories_of in Hm as (mt & Hmt & Hs & ->).
    apply in_nearest in Hmt as (x & Hx & Hns & ->).
    cbn [VECTORIZE called set_faults set_calls] in Hx.
    cbn [memory_of_match id score_vector match_id] in Hid.
    rewrite HV in Hx; unfold upsert_one in Hx.
    apply in_app_or in Hx as [Hx|[<-|[]]].
    + apply filter_In in Hx as [_ Hx]; apply negb_true_iff, eqb_neq in Hx.
      now contradiction Hx.
    + split; [|symmetry; exact Hns].
      unfold score_vector, updated_vector in Hs |- *.
      cbn [vec_id vec_values vec_metadata match_score] in Hs |- *.
      now rewrite content_metadata_read.
Qed.

Lemma update_then_search_witness :
  exists w',
    app_put Scenario.alice (Scenario.ids 0) (Scenario.body_with (str " decaf "))
      Scenario.two_users
    = (Returned (mkResponse 200 true None), w')
    /\ (forall query ns ms w'' m,
           searchMemories query ns w' = (Returned ms, w'') ->
           In m ms -> id m = Scenario.ids 0 ->
           content m = trim (str " decaf ") /\ ns = Scenario.alice).
Proof.
  destruct (update_then_search Scenario.alice (Scenario.ids 0)
              (VObject [(str "content", VString (str " decaf "))]) (str " decaf ")
              Scenario.two_users [0.5; 0.5]%float
              ltac:(reflexivity) ltac:(vm_compute; discriminate)
              ltac:(vm_compute; reflexivity) ltac:(vm_compute; discriminate)
              ltac:(vm_compute; reflexivity) ltac:(vm_compute; reflexivity)
              ltac:(vm_compute; reflexivity))
    as (w' & Hrun & _ & Hsearch).
  exists w'; split; assumption.
Defined.

(** The DELETE route when the statement and [deleteByIds] both take effect. *)
Lemma app_delete_both (userId memoryId : jsstring) (w : World) :
  next_fault w = None -> nth 1 (faults w) None = None ->
  exists w',
    app_delete userId memoryId w = (Returned (mkResponse 200 true None), w')
    /\ DB w' = rows_deleted memoryId userId (DB w)
    /\ VECTORIZE w'
       = filter (fun v => negb (existsb (Js.eqb (vec_id v)) [memoryId]))
           (VECTORIZE w).
Proof.
  intros F0 F1; unfold app_delete, try_catch, bind.
  rewrite deleteMemoryFromD1_eq, F0.
  unfold console_log at 1, deleteVectorById, try_catch, bind.
  rewrite Vectorize_deleteByIds_eq; unfold settle.
  rewrite ?next_fault_set_console, ?next_fault_set_DB, next_fault_called, F1.
  eexists; split; [reflexivity|]; split; reflexivity.
Qed.

Lemma deleted_vector_gone (memoryId : jsstring) (vs : list VectorizeVector)
  (x : VectorizeVector) :
  In x (filter (fun v => negb (existsb (Js.eqb (vec_id v)) [memoryId])) vs) ->
  vec_id x <> memoryId.
Proof.
  intros H E; apply filter_In in H as [_ H]; cbn in H.
  rewrite E, eqb_refl in H; discriminate.
Qed.

(** X7. After a DELETE whose statement and [deleteByIds] both took effect,
    the table has no row of that id and user, and no search of any
    namespace returns that id. *)
Theorem forget_then_search (userId memoryId : jsstring) (w : World) :
  next_fault w = None -> nth 1 (faults w) None = None ->
  exists w',
    app_delete userId memoryId w = (Returned (mkResponse 200 true None), w')
    /\ (forall r, In r (DB w') -> row_matches memoryId userId r = false)
    /\ (forall query ns ms w'' m,
           searchMemories query ns w' = (Returned ms, w'') ->
           In m ms -> id m <> memoryId).
Proof.
  intros F0 F1.
  destruct (app_delete_both userId memoryId w F0 F1) as (w' & Hrun & HD & HV).
  exists w'; split; [exact Hrun|]; split.
  - intros r Hr; rewrite HD in Hr; now apply rows_deleted_gone in Hr.
  - intros query ns ms w'' m Hsearch Hm.
    apply searchMemories_matches in Hsearch as (qv & _ & ->).
    apply in_memories_of in Hm as (mt & Hmt & _ & ->).
    apply in_nearest in Hmt as (x & Hx & _ & ->).
    cbn [VECTORIZE called set_faults set_calls] in Hx.
    rewrite HV in Hx; now apply deleted_vector_gone in Hx.
Qed.

Lemma forget_then_search_witness :
  exists w',
    app_delete Scenario.alice (Scenario.ids 0) Scenario.two_users
    = (Returned (mkResponse 200 true None), w')
    /\ (forall query ns ms w'' m,
           searchMemories query ns w' = (Returned ms, w'') ->
           In m ms -> id m <> Scenario.ids 0).
Proof.
  destruct (forget_then_search Scenario.alice (Scenario.ids 0) Scenario.two_users
              ltac:(vm_compute; reflexivity) ltac:(vm_compute; reflexivity))
    as (w' & Hrun & _ & Hsearch).
  exists w'; split; assumption.
Defined.

(** X8. A DELETE that names the id of another user's memory answers 200,
    leaves that user's row in the table, and removes the vector of that id
    from the index: [deleteByIds] is not told the namespace. *)
Theorem delete_by_another_user
  (userId memoryId : jsstring) (w : World) (r : Row) :
  next_fault w = None -> nth 1 (faults w) None = None ->
  In r (DB w) -> row_id r = memoryId -> row_userId r <> userId ->
  exists w',
    app_delete userId memoryId w = (Returned (mkResponse 200 true None), w')
    /\ In r (DB w')
    /\ (forall x, In x (VECTORIZE w') -> vec_id x <> memoryId).
Proof.
  intros F0 F1 Hr Hid Hu.
  destruct (app_delete_both userId memoryId w F0 F1) as (w' & Hrun & HD & HV).
  exists w'; split; [exact Hrun|]; split.
  - rewrite HD; apply filter_In; split; [exact Hr|].
    unfold row_matches; apply eqb_neq in Hu; rewrite Hu, andb_false_r; reflexivity.
  - intros x Hx; rewrite HV in Hx; now apply deleted_vector_gone in Hx.
Qed.

Lemma delete_by_another_user_witness :
  exists w',
    app_delete Scenario.bob (Scenario.ids 0) Scenario.two_users
    = (Returned (mkResponse 200 true None), w')
    /\ In (mkRow (Scenario.ids 0) Scenario.alice Scenario.coffee 1700000000) (DB w')
    /\ (forall x, In x (VECTORIZE w') -> vec_id x <> Scenario.ids 0).
Proof.
  exact (delete_by_another_user Scenario.bob (Scenario.ids 0) Scenario.two_users
           (mkRow (Scenario.ids 0) Scenario.alice Scenario.coffee 1700000000)
           ltac:(vm_compute; reflexivity) ltac:(vm_compute; reflexivity)
           ltac:(left; reflexivity) ltac:(reflexivity)
           ltac:(vm_compute; discriminate)).
Defined.

(** ** Failures *)

(** X11. A body that cannot be parsed, and a body whose content is not a
    string, are answered 400 without a call on a binding: the stores are
    as they were. *)
Theorem put_rejects_unusable_body (userId memoryId : jsstring) (w : World) :
  (forall e,
      exists w',
        app_put userId memoryId (Thrown e) w
        = (Returned (mkResponse 400 false (Some (str "Failed to parse request body"))),
           w')
        /\ DB w' = DB w /\ VECTORIZE w' = VECTORIZE w /\ calls w' = calls w)
  /\ (forall v,
         (forall s, get v (str "content") <> Some (VString s)) ->
         app_put userId memoryId (Returned v) w
         = (Returned (mkResponse 400 false
                        (Some (str "Invalid or missing content in request body"))),
            w)).
Proof.
  split.
  - intros e; eexists; split; [reflexivity|]; repeat split.
  - intros v Hv; unfold app_put, read_updatedContent, try_catch, bind.
    destruct (truthy v); [|reflexivity].
    destruct (get v (str "content")) as [[]|]; try reflexivity.
    now contradiction (Hv s).
Qed.

Lemma put_rejects_unusable_body_witness :
  app_put Scenario.alice (Scenario.ids 0)
    (Returned (VObject [(str "content", VNumber 42%float)])) Scenario.two_users
  = (Returned (mkResponse 400 false
                 (Some (str "Invalid or missing content in request body"))),
     Scenario.two_users).
Proof.
  apply (proj2 (put_rejects_unusable_body Scenario.alice (Scenario.ids 0)
                  Scenario.two_users)).
  intros s H; vm_compute in H; discriminate H.
Defined.

(** X12. When the DELETE statement is rejected, the route answers 500 with
    "Failed to delete memory" and does not call [deleteByIds]: the index
    is as it was. *)
Theorem delete_stops_when_record_delete_fails
  (userId memoryId : jsstring) (w : World) (e : Error) :
  next_fault w = Some e ->
  exists w',
    app_delete userId memoryId w
    = (Returned (mkResponse 500 false (Some (str "Failed to delete memory"))), w')
    /\ DB w' = DB w /\ VECTORIZE w' = VECTORIZE w
    /\ calls w' = calls w ++ [DB_delete memoryId userId].
Proof.
  intros F; unfold app_delete, try_catch, bind.
  rewrite deleteMemoryFromD1_eq, F.
  eexists; split; [reflexivity|]; repeat split.
Qed.

Lemma delete_stops_when_record_delete_fails_witness :
  exists w',
    app_delete Scenario.alice (Scenario.ids 0)
      (Scenario.with_faults [Some Scenario.outage] Scenario.two_users)
    = (Returned (mkResponse 500 false (Some (str "Failed to delete memory"))), w')
    /\ DB w' = DB Scenario.two_users
    /\ VECTORIZE w' = VECTORIZE Scenario.two_users
    /\ calls w' = [DB_delete (Scenario.ids 0) Scenario.alice].
Proof.
  exact (delete_stops_when_record_delete_fails Scenario.alice (Scenario.ids 0)
           (Scenario.with_faults [Some Scenario.outage] Scenario.two_users)
           Scenario.outage ltac:(vm_compute; reflexivity)).
Defined.

(** X13. When the UPDATE statement is rejected, the PUT route answers 404
    or 500 with the message of the error, requests no embedding and does
    not touch the index. *)
Theorem update_stops_when_record_update_fails
  (userId memoryId : jsstring) (v : value) (s : jsstring) (w : World) (e : Error) :
  get v (str "content") = Some (VString s) -> trim s <> [] ->
  next_fault w = Some e ->
  exists r w',
    app_put userId memoryId (Returned v) w = (Returned r, w')
    /\ success r = false
    /\ error r = Some (or_else (message e) (str "Failed to update memory"))
    /\ (status r = 404%N \/ status r = 500%N)
    /\ DB w' = DB w /\ VECTORIZE w' = VECTORIZE w
    /\ calls w' = calls w ++ [DB_update (trim s) memoryId userId].
Proof.
  intros Hget Hne F.
  unfold app_put, bind; rewrite (read_updatedContent_valid v s w Hget Hne).
  unfold try_catch at 1; cbv beta.
  rewrite updateMemoryInD1_eq; cbv zeta; rewrite F.
  unfold console_error, ret, bind; cbv zeta.
  destruct (includes _ (str "not found"));
    eexists; eexists; (split; [reflexivity|]); cbn; repeat split; auto.
Qed.

Lemma update_stops_when_record_update_fails_witness :
  exists r w',
    app_put Scenario.alice (Scenario.ids 0) (Scenario.body_with (str " decaf "))
      (Scenario.with_faults [Some Scenario.outage] Scenario.two_users)
    = (Returned r, w')
    /\ success r = false
    /\ VECTORIZE w' = VECTORIZE Scenario.two_users.
Proof.
  destruct (update_stops_when_record_update_fails Scenario.alice (Scenario.ids 0)
              (VObject [(str "content", VString (str " decaf "))]) (str " decaf ")
              (Scenario.with_faults [Some Scenario.outage] Scenario.two_users)
              Scenario.outage ltac:(reflexivity) ltac:(vm_compute; discriminate)
              ltac:(vm_compute; reflexivity))
    as (r & w' & Hrun & Hs & _ & _ & _ & HV & _).
  exists r, w'; repeat split; assumption.
Defined.

(** X14. When the vector has been upserted and the INSERT is then rejected,
    by a failure of the store or because a row has the id already,
    [addToMCPMemory] replies "Failed to remember: " followed by the
    rendering of the error it caught; the table is as it was and the vector
    stays in the index. *)
Theorem remember_leaves_vector_when_insert_fails
  (ns content : jsstring) (w : World) (values : list float) :
  next_fault w = None -> AI w content = Some values ->
  nth 1 (faults w) None = None ->
  forall e,
    (nth 2 (faults w) None = Some e
     \/ (nth 2 (faults w) None = None
         /\ existsb (fun r => Js.eqb (row_id r) (uuid w (uuid_count w))) (DB w) = true
         /\ e = unique_violation w)) ->
    exists w',
      addToMCPMemory ns content w
      = (Returned (mkToolResult (str "Failed to remember: " ++ String_of_error e)), w')
      /\ DB w' = DB w
      /\ VECTORIZE w' = upsert_one (VECTORIZE w) (stored_vector w ns content values)
      /\ calls w' = calls w ++ [AI_run content;
                                VECTORIZE_upsert [stored_vector w ns content values];
                                DB_insert (uuid w (uuid_count w)) ns content].
Proof.
  intros F0 HAI F1 e He.
  unfold addToMCPMemory, storeMemory, storeMemoryInD1, try_catch, bind, uuidv4,
    ret, throw.
  rewrite generateEmbeddings_eq.
  rewrite next_fault_set_uuid_count, F0.
  cbn [AI set_uuid_count]; rewrite HAI.
  rewrite Vectorize_upsert_eq; unfold settle.
  rewrite next_fault_called; cbn [faults set_uuid_count]; rewrite F1.
  rewrite D1_run_insert_eq.
  rewrite next_fault_set_VECTORIZE, next_fault_called.
  cbn [faults called set_faults set_calls set_uuid_count]; rewrite nth_tl.
  cbn [DB set_VECTORIZE called set_faults set_calls set_uuid_count].
  destruct He as [F2|(F2 & Hdup & ->)]; rewrite F2.
  - unfold console_error; eexists; split; [reflexivity|].
    cbn; rewrite <- !app_assoc; repeat split.
  - rewrite Hdup; unfold console_error.
    eexists; split; [reflexivity|].
    cbn; rewrite <- !app_assoc; repeat split.
Qed.

Lemma remember_leaves_vector_when_insert_fails_witness :
  (exists w',
      addToMCPMemory Scenario.alice Scenario.coffee
        (Scenario.with_faults [None; None; Some Scenario.fetch_failed] Scenario.fresh)
      = (Returned (mkToolResult (str "Failed to remember: TypeError: fetch failed")),
         w')
      /\ DB w' = []
      /\ VECTORIZE w'
         = [mkVector (Scenario.ids 0) [1; 0]%float Scenario.alice
              (Some (content_metadata Scenario.coffee))])
  /\ (exists w',
         addToMCPMemory Scenario.bob Scenario.tea Cases.replayed
         = (Returned (mkToolResult
                        (str "Failed to remember: "
                           ++ String_of_error Scenario.refused)), w')
         /\ DB w' = DB Cases.replayed
         /\ VECTORIZE w'
            = [mkVector (Scenario.ids 0) [0; 1]%float Scenario.bob
                 (Some (content_metadata Scenario.tea))]).
Proof.
  split.
  - assert (F2 : nth 2 (faults (Scenario.with_faults
                                  [None; None; Some Scenario.fetch_failed]
                                  Scenario.fresh)) None
                 = Some Scenario.fetch_failed) by (vm_compute; reflexivity).
    destruct (remember_leaves_vector_when_insert_fails Scenario.alice Scenario.coffee
                (Scenario.with_faults [None; None; Some Scenario.fetch_failed]
                   Scenario.fresh)
                [1; 0]%float ltac:(vm_compute; reflexivity)
                ltac:(vm_compute; reflexivity) ltac:(vm_compute; reflexivity)
                Scenario.fetch_failed (or_introl F2))
      as (w' & Hrun & HD & HV & _).
    exists w'; split; [exact Hrun|split; [exact HD|exact HV]].
  - assert (Hdup : nth 2 (faults Cases.replayed) None = None
                   /\ existsb (fun r => Js.eqb (row_id r)
                                          (uuid Cases.replayed (uuid_count Cases.replayed)))
                        (DB Cases.replayed) = true
                   /\ Scenario.refused = unique_violation Cases.replayed)
      by (vm_compute; repeat split).
    destruct (remember_leaves_vector_when_insert_fails Scenario.bob Scenario.tea
                Cases.replayed
                [0; 1]%float ltac:(vm_compute; reflexivity)
                ltac:(vm_compute; reflexivity) ltac:(vm_compute; reflexivity)
                Scenario.refused (or_intror Hdup))
      as (w' & Hrun & HD & HV & _).
    exists w'; split; [exact Hrun|split; [exact HD|exact HV]].
Defined.

(** X15. [addToMCPMemory] never rejects.  It replies "Remembered: ..." and
    has appended the row, or it replies "Failed to remember: " followed by
    the rendering of the error it caught, which is the error of its last
    console line, and the table is as it was. *)
Theorem remember_always_replies (ns content : jsstring) (w : World) :
  exists r w',
    addToMCPMemory ns content w = (Returned r, w')
    /\ ((text r = str "Remembered: " ++ content
         /\ DB w' = DB w ++ [mkRow (uuid w (uuid_count w)) ns content (clock w)])
        \/ ((exists e ls,
                text r = str "Failed to remember: " ++ String_of_error e
                /\ console w'
                   = console w ++ ls
                       ++ [mkLine Err (str "Error storing memory:") (Some e)])
            /\ DB w' = DB w)).
Proof.
  unfold addToMCPMemory, storeMemory, storeMemoryInD1, try_catch, bind, uuidv4,
    ret, throw.
  rewrite generateEmbeddings_eq.
  destruct (next_fault _) as [e|].
  { eexists; eexists; split; [reflexivity|]; right.
    split; [exists e, []; split; reflexivity|reflexivity]. }
  cbn [AI set_uuid_count].
  destruct (AI w content) as [values|].
  2:{ eexists; eexists; split; [reflexivity|]; right.
      split; [eexists; exists []; split; reflexivity|reflexivity]. }
  rewrite Vectorize_upsert_eq; unfold settle.
  destruct (next_fault (called _ _)) as [e|].
  { eexists; eexists; split; [reflexivity|]; right.
    split; [exists e, []; split; reflexivity|reflexivity]. }
  rewrite D1_run_insert_eq.
  destruct (next_fault (set_VECTORIZE _ _)) as [e|].
  { eexists; eexists; split; [reflexivity|]; right.
    split; [|reflexivity].
    exists e, [mkLine Err (str "Error storing memory in D1:") (Some e)].
    split; [reflexivity|cbn; now rewrite <- app_assoc]. }
  cbn [DB set_VECTORIZE called set_faults set_calls set_uuid_count].
  destruct (existsb _ (DB w)).
  { eexists; eexists; split; [reflexivity|]; right.
    split; [|reflexivity].
    exists (unique_violation w),
      [mkLine Err (str "Error storing memory in D1:") (Some (unique_violation w))].
    split; [reflexivity|cbn; now rewrite <- app_assoc]. }
  eexists; eexists; split; [reflexivity|]; left; split; reflexivity.
Qed.

(** X18. The DELETE and PUT routes never reject.  DELETE answers 200 or
    500; PUT answers 200, or 400, 404 or 500 with [success: false] and an
    error message. *)
Theorem routes_always_respond (userId memoryId : jsstring) (w : World) :
  (exists r w',
      app_delete userId memoryId w = (Returned r, w')
      /\ (r = mkResponse 200 true None
          \/ r = mkResponse 500 false (Some (str "Failed to delete memory"))))
  /\ (forall body,
         exists r w',
           app_put userId memoryId body w = (Returned r, w')
           /\ (r = mkResponse 200 true None
               \/ (success r = false /\ error r <> None
                   /\ (status r = 400 \/ status r = 404 \/ status r = 500)%N))).
Proof.
  split.
  - unfold app_delete, try_catch, bind; rewrite deleteMemoryFromD1_eq.
    destruct (next_fault w).
    + eexists; eexists; split; [reflexivity|now right].
    + unfold console_log at 1, deleteVectorById, try_catch, bind.
      rewrite Vectorize_deleteByIds_eq; unfold settle.
      destruct (next_fault _); eexists; eexists; (split; [reflexivity|now left]).
  - intros body.
    assert (Hbad : forall (x : Response) (w0 : World),
               status x = 400%N -> success x = false -> error x <> None ->
               exists r w',
                 (Returned x, w0) = (Returned r, w')
                 /\ (r = mkResponse 200 true None
                     \/ (success r = false /\ error r <> None
                         /\ (status r = 400 \/ status r = 404 \/ status r = 500)%N))).
    { intros x w0 H1 H2 H3; exists x, w0; split; [reflexivity|right; auto]. }
    unfold app_put, bind.
    destruct body as [v|e].
    2:{ apply Hbad; cbn; congruence. }
    unfold read_updatedContent, try_catch at 1, bind.
    destruct (if truthy v then get v (str "content") else None) as [[]|];
      try (apply Hbad; cbn; congruence).
    destruct (Js.eqb (trim s) []); [apply Hbad; cbn; congruence|].
    unfold ret at 1, try_catch at 1; cbv beta.
    rewrite updateMemoryInD1_eq; cbv zeta.
    assert (Hfail : forall (e : Error) (w0 : World),
               exists r w',
                 (let errorMessage := or_else (message e) (str "Failed to update memory") in
                  if includes errorMessage (str "not found")
                  then ret (mkResponse 404 false (Some errorMessage))
                  else ret (mkResponse 500 false (Some errorMessage))) w0
                 = (Returned r, w')
                 /\ (r = mkResponse 200 true None
                     \/ (success r = false /\ error r <> None
                         /\ (status r = 400 \/ status r = 404 \/ status r = 500)%N))).
    { intros e w0; cbv zeta; destruct (includes _ (str "not found"));
        eexists; eexists; (split; [reflexivity|right]); cbn;
        repeat split; auto; congruence. }
    destruct (next_fault w) as [e|]; [unfold console_error, bind; apply Hfail|].
    destruct (N.eqb (rows_matching memoryId userId (DB w)) 0);
      [unfold console_error, bind; apply Hfail|].
    unfold bind, console_log at 1, try_catch.
    destruct (updateMemoryVector _ _ _ _) as [[[]|e] w1];
      eexists; eexists; (split; [reflexivity|now left]).
Qed.

(** ** The middleware *)

(** X17. The middleware never keeps a request from its route.  Once the
    table has been created it does nothing; before that it issues the
    creation, sets the flag when it succeeds, and when it fails logs the
    error and leaves the flag unset, so that the next request tries again. *)
Theorem middleware_initialises_once {A} (next : M A) (w : World) :
  app_use next w = next (initialised w)
  /\ (dbInitialized w = true -> initialised w = w)
  /\ (dbInitialized w = false -> next_fault w = None ->
      dbInitialized (initialised w) = true
      /\ calls (initialised w) = calls w ++ [DB_exec_create_table])
  /\ (forall e, dbInitialized w = false -> next_fault w = Some e ->
      dbInitialized (initialised w) = false
      /\ calls (initialised w) = calls w ++ [DB_exec_create_table]
      /\ In (mkLine Err (str "Failed to initialize D1 database:") (Some e))
           (console (initialised w))).
Proof.
  split; [apply app_use_eq|].
  unfold initialised, app_use, bind.
  split; [|split].
  - intros ->; reflexivity.
  - intros -> F.
    unfold initializeDatabase, D1_exec_create_table, try_catch, bind, call,
      console_log, console_error, ret, throw.
    rewrite !next_fault_set_console, F; split; reflexivity.
  - intros e Hflag F; rewrite Hflag.
    unfold initializeDatabase, D1_exec_create_table, try_catch, bind, call,
      console_log, console_error, ret, throw.
    rewrite !next_fault_set_console, F; cbn; repeat split; [exact Hflag|].
    apply in_or_app; right; now left.
Qed.

Lemma middleware_initialises_once_witness :
  dbInitialized (initialised Cases.cold) = true
  /\ calls (initialised Cases.cold) = [DB_exec_create_table].
Proof.
  destruct (middleware_initialises_once (ret tt) Cases.cold) as (_ & _ & H & _).
  exact (H eq_refl eq_refl).
Defined.

(** ** Listing *)

Lemma insert_newest_perm (r : Row) (l : list Row) :
  Permutation (insert_newest r l) (r :: l).
Proof.
  induction l as [|y l IH]; simpl; [reflexivity|].
  destruct (N.ltb (row_created_at r) (row_created_at y)); [|reflexivity].
  rewrite IH; apply perm_swap.
Qed.

Lemma newest_first_perm (rows : list Row) : Permutation (newest_first rows) rows.
Proof.
  induction rows as [|r rows IH]; simpl; [reflexivity|].
  rewrite insert_newest_perm; now constructor.
Qed.

Lemma insert_newest_sorted (r : Row) (l : list Row) :
  StronglySorted not_older l -> StronglySorted not_older (insert_newest r l).
Proof.
  induction l as [|y l IH]; simpl; intros Hs.
  - repeat constructor.
  - apply StronglySorted_inv in Hs as [Hl Hy].
    destruct (N.ltb (row_created_at r) (row_created_at y)) eqn:E.
    + apply N.ltb_lt in E; constructor; [now apply IH|].
      rewrite Forall_forall in *; intros x Hx.
      apply (Permutation_in _ (insert_newest_perm r l)) in Hx as [<-|Hx].
      * unfold not_older; lia.
      * now apply Hy.
    + apply N.ltb_ge in E; constructor; [now constructor|].
      constructor; [exact E|].
      rewrite Forall_forall in *; intros x Hx.
      specialize (Hy x Hx); unfold not_older in *; lia.
Qed.

Lemma newest_first_sorted (rows : list Row) :
  StronglySorted not_older (newest_first rows).
Proof.
  induction rows as [|r rows IH]; simpl; [constructor|].
  now apply insert_newest_sorted.
Qed.

(** X19. When the SELECT statement runs, [getAllMemoriesFromD1] returns the
    id and content of the rows of the user, all of them and no other,
    newest first, and changes no store. *)
Theorem list_returns_the_rows_of_the_user (userId : jsstring) (w : World) :
  next_fault w = None ->
  exists rows w',
    getAllMemoriesFromD1 userId w
    = (Returned (map (fun r => mkItem (row_id r) (row_content r)) rows), w')
    /\ Permutation rows (filter (fun r => Js.eqb (row_userId r) userId) (DB w))
    /\ (forall r, In r rows <-> In r (DB w) /\ row_userId r = userId)
    /\ StronglySorted not_older rows
    /\ DB w' = DB w /\ VECTORIZE w' = VECTORIZE w.
Proof.
  intros F; unfold getAllMemoriesFromD1, try_catch, D1_all_select, call; rewrite F.
  exists (newest_first (filter (fun r => Js.eqb (row_userId r) userId) (DB w))).
  eexists; split; [reflexivity|].
  split; [apply newest_first_perm|].
  split; [|split; [apply newest_first_sorted|split; reflexivity]].
  intros r; split.
  - intros Hr; apply (Permutation_in _ (newest_first_perm _)) in Hr.
    apply filter_In in Hr as [Hr Hu]; split; [exact Hr|now apply eqb_eq].
  - intros [Hr Hu].
    apply (Permutation_in _ (Permutation_sym (newest_first_perm _))).
    apply filter_In; split; [exact Hr|now apply eqb_eq].
Qed.

Lemma list_returns_the_rows_of_the_user_witness :
  exists rows w',
    getAllMemoriesFromD1 Scenario.alice Cases.listed
    = (Returned (map (fun r => mkItem (row_id r) (row_content r)) rows), w')
    /\ (forall r, In r rows <-> In r (DB Cases.listed) /\ row_userId r = Scenario.alice)
    /\ StronglySorted not_older rows.
Proof.
  destruct (list_returns_the_rows_of_the_user Scenario.alice Cases.listed
              ltac:(vm_compute; reflexivity))
    as (rows & w' & Hrun & _ & Hin & Hsorted & _).
  exists rows, w'; split; [exact Hrun|split; [exact Hin|exact Hsorted]].
Defined.

(** X20. The GET route never rejects and changes no store.  It issues the
    SELECT of the user, that call and no other, and answers 200 with the
    memories of the user, or 500 with "Failed to retrieve memories" and no
    memories when the statement is rejected. *)
Theorem list_route_responds (userId : jsstring) (w : World) :
  exists w',
    app_get userId w
    = (Returned
         match next_fault w with
         | None => mkListResponse 200 true (Some (rows_selected userId (DB w))) None
         | Some _ =>
             mkListResponse 500 false None (Some (str "Failed to retrieve memories"))
         end, w')
    /\ DB w' = DB w /\ VECTORIZE w' = VECTORIZE w
    /\ calls w' = calls w ++ [DB_select userId].
Proof.
  unfold app_get, getAllMemoriesFromD1, try_catch, bind, D1_all_select, call.
  destruct (next_fault w); eexists; (split; [reflexivity|]); repeat split.
Qed.

(** ** The search tool *)

Lemma searchMemories_set_console (q ns : jsstring) (l : list Line) (w : World) :
  fst (searchMemories q ns (set_console l w)) = fst (searchMemories q ns w).
Proof.
  rewrite !searchMemories_eq, next_fault_set_console; cbn [AI set_console].
  destruct (next_fault w); [reflexivity|].
  destruct (AI w q); reflexivity.
Qed.

(** X21. [searchMCPMemory] never rejects and changes no store.  Its reply is
    "No relevant memories found." when the search returns nothing, the
    list of contents and scores when it returns memories, and "Failed to
    search memories: ..." when the search fails. *)
Theorem search_tool_always_replies
  (toFixed4 : float -> jsstring) (userId query : jsstring) (w : World) :
  exists r w',
    searchMCPMemory toFixed4 userId query w = (Returned r, w')
    /\ DB w' = DB w /\ VECTORIZE w' = VECTORIZE w
    /\ text r
       = match fst (searchMemories query userId w) with
         | Thrown e => str "Failed to search memories: " ++ String_of_error e
         | Returned [] => str "No relevant memories found."
         | Returned ms =>
             str "Found memories:" ++ [10%N]
               ++ join [10%N]
                    (map (fun m => content m ++ str " (score: "
                                     ++ toFixed4 (score m) ++ str ")") ms)
         end.
Proof.
  pose proof (keeps_searchMCPMemory same_stores Frame_same_stores toFixed4
                userId query w) as [HD HV].
  destruct (searchMCPMemory toFixed4 userId query w) as [o w'] eqn:Hrun.
  cbn [snd] in HD, HV.
  unfold searchMCPMemory, try_catch, bind, console_log at 1 in Hrun.
  pose proof (searchMemories_set_console query userId
                (console w ++ [mkLine Log (str "Searching with query: " ++ [34%N]
                                             ++ query ++ [34%N]) None]) w) as Hsame.
  destruct (searchMemories query userId (set_console _ w)) as [[ms|e] w1];
    cbn [fst] in Hsame; rewrite <- Hsame.
  - unfold console_log, ret in Hrun.
    destruct ms as [|m ms]; cbn in Hrun; injection Hrun as <- <-;
      eexists; eexists; (split; [reflexivity|]); repeat split; assumption.
  - unfold console_error, ret in Hrun; injection Hrun as <- <-.
    eexists; eexists; (split; [reflexivity|]); repeat split; assumption.
Qed.

(** ** The mount *)

Lemma split_slash_cons_slash (s : jsstring) :
  split_slash (47%N :: s) = [] :: split_slash s.
Proof. reflexivity. Qed.

Lemma split_slash_segment (u rest : jsstring) :
  (forall c, In c u -> c <> 47%N) ->
  split_slash (u ++ 47%N :: rest) = u :: split_slash rest.
Proof.
  induction u as [|c u IH]; intros Hu; [reflexivity|].
  cbn [app split_slash].
  assert (Hc : N.eqb c 47 = false) by (apply N.eqb_neq, Hu; now left).
  rewrite Hc, IH; [reflexivity|].
  intros c' Hc'; apply Hu; now right.
Qed.

Lemma split_slash_no_slash (u : jsstring) :
  (forall c, In c u -> c <> 47%N) -> split_slash u = [u].
Proof.
  induction u as [|c u IH]; intros Hu; [reflexivity|].
  cbn [split_slash].
  assert (Hc : N.eqb c 47 = false) by (apply N.eqb_neq, Hu; now left).
  rewrite Hc, IH; [reflexivity|].
  intros c' Hc'; apply Hu; now right.
Qed.

(** X22. The mount takes the user id from the first segment of the path
    and hands it to the agent, whose response it returns (404 when there is
    none); a path whose first segment is empty or missing is answered 400
    and the agent is not called. *)
Theorem mount_passes_the_first_segment
  (fetch : jsstring -> jsstring -> M (option RawResponse))
  (userId rest : jsstring) (w : World) :
  (forall c, In c userId -> c <> 47%N) ->
  (userId <> [] ->
   app_mount fetch (str "/" ++ userId ++ str "/" ++ rest) w
   = match fetch (str "/" ++ userId ++ str "/sse") userId w with
     | (Returned (Some r), w') => (Returned r, w')
     | (Returned None, w') =>
         (Returned (mkRaw 404 (str "Not Found within MCP mount")), w')
     | (Thrown e, w') => (Thrown e, w')
     end)
  /\ app_mount fetch (str "//" ++ rest) w
     = (Returned (mkRaw 400 (str "Bad Request: Could not extract userId from URL path")),
        w)
  /\ app_mount fetch userId w
     = (Returned (mkRaw 400 (str "Bad Request: Could not extract userId from URL path")),
        w).
Proof.
  intros Hu; split; [|split].
  - intros Hne; unfold app_mount.
    change (str "/" ++ userId ++ str "/" ++ rest)
      with (47%N :: (userId ++ 47%N :: rest)).
    rewrite split_slash_cons_slash, split_slash_segment by exact Hu.
    cbn [nth_error]; apply eqb_neq in Hne; rewrite Hne.
    unfold bind; destruct (fetch _ userId w) as [[[r|]|e] w']; reflexivity.
  - reflexivity.
  - unfold app_mount; rewrite split_slash_no_slash by exact Hu; reflexivity.
Qed.

Lemma mount_passes_the_first_segment_witness :
  app_mount Cases.agent (str "/" ++ Scenario.alice ++ str "/" ++ str "sse")
    Scenario.fresh
  = (Returned (mkRaw 200 (str "sse for " ++ Scenario.alice)), Scenario.fresh).
Proof.
  apply (proj1 (mount_passes_the_first_segment Cases.agent Scenario.alice
                  (str "sse") Scenario.fresh
                  ltac:(intros c Hc; vm_compute in Hc; intuition (subst; discriminate)))).
  vm_compute; discriminate.
Defined.

(** ** The order of the memories *)

Section Signs.
Variables prec emax : Z.

(** A rounded number that is above zero was rounded with the positive
    sign. *)
Lemma binary_round_aux_above_zero (sx : bool) (m e : Z) (l : location) :
  SFltb (S754_zero false) (binary_round_aux prec emax sx m e l) = true ->
  sx = false.
Proof.
  unfold binary_round_aux.
  destruct (shr_fexp prec emax m e l) as [mrs' e'].
  destruct (shr_fexp prec emax _ e' loc_Exact) as [mrs'' e''].
  destruct (shr_m mrs'') as [|p|p]; [| |discriminate].
  - destruct sx; [discriminate|reflexivity].
  - destruct (Z.leb e'' (emax - prec)); destruct sx; try discriminate; reflexivity.
Qed.

Lemma binary_normalize_above_zero (m e : Z) :
  SFltb (S754_zero false) (binary_normalize prec emax m e false) = true ->
  (0 < m)%Z.
Proof.
  destruct m as [|p|p]; simpl.
  - discriminate.
  - lia.
  - unfold binary_round.
    destruct (shl_align p e _) as [mz ez].
    intros H; apply binary_round_aux_above_zero in H; discriminate.
Qed.

Lemma binary_normalize_not_above_zero (m e : Z) :
  (m <= 0)%Z ->
  SFltb (S754_zero false) (binary_normalize prec emax m e false) = false.
Proof.
  intros Hm.
  destruct (SFltb _ (binary_normalize prec emax m e false)) eqn:E; [|reflexivity].
  apply binary_normalize_above_zero in E; lia.
Qed.

(** When [x - y] is above zero, [y - x] is not. *)
Lemma SFsub_above_zero_once (x y : spec_float) :
  SFltb (S754_zero false) (SFsub prec emax x y) = true ->
  SFltb (S754_zero false) (SFsub prec emax y x) = false.
Proof.
  destruct x as [sx|sx| |sx mx ex], y as [sy|sy| |sy my ey]; cbn [SFsub];
    try solve [ intros H;
                repeat match goal with b : bool |- _ => destruct b end;
                simpl in *; try discriminate H; reflexivity ].
  cbv zeta; intros H; apply binary_normalize_above_zero in H.
  rewrite (Z.min_comm ey ex).
  apply binary_normalize_not_above_zero; lia.
Qed.
End Signs.

Lemma sub_above_zero_once (x y : float) :
  (0 <? x - y)%float = true -> (0 <? y - x)%float = false.
Proof.
  rewrite !ltb_spec, !sub_spec.
  change (Prim2SF 0%float) with (Prim2SF PrimFloat.zero); rewrite zero_repr.
  apply SFsub_above_zero_once.
Qed.

Section SortOrder.
Variable A : Type.
Variable compareFn : A -> A -> float.
Hypothesis once :
  forall x y, (0 <? compareFn x y)%float = true -> (0 <? compareFn y x)%float = false.

Let before (a b : A) : Prop := (0 <? compareFn a b)%float = false.

Lemma insert_hd (x y : A) (l : list A) :
  before y x -> HdRel before y l -> HdRel before y (insert compareFn x l).
Proof.
  intros Hx Hl; destruct l as [|z l]; simpl; [now constructor|].
  destruct (0 <? compareFn x z)%float; constructor; [|exact Hx].
  now inversion Hl.
Qed.

Lemma insert_keeps_order (x : A) (l : list A) :
  Sorted before l -> Sorted before (insert compareFn x l).
Proof.
  induction l as [|y l IH]; simpl; intros Hs; [repeat constructor|].
  destruct (0 <? compareFn x y)%float eqn:E.
  - inversion Hs as [|? ? Hl Hy]; subst.
    constructor; [now apply IH|].
    apply insert_hd; [now apply once|exact Hy].
  - constructor; [exact Hs|now constructor].
Qed.

Lemma sort_in_order (l : list A) : Sorted before (sort compareFn l).
Proof.
  induction l as [|x l IH]; simpl; [constructor|now apply insert_keeps_order].
Qed.

Lemma insert_permutes (x : A) (l : list A) :
  Permutation (insert compareFn x l) (x :: l).
Proof.
  induction l as [|y l IH]; simpl; [reflexivity|].
  destruct (0 <? compareFn x y)%float; [|reflexivity].
  rewrite IH; apply perm_swap.
Qed.
End SortOrder.

Lemma sort_permutes {A} (cmp : A -> A -> float) (l : list A) :
  Permutation (sort cmp l) l.
Proof.
  induction l as [|x l IH]; simpl; [reflexivity|].
  rewrite insert_permutes; now constructor.
Qed.

(** X23. The memories [searchMemories] returns are in the order of its
    comparator: no memory is directly followed by one whose score minus
    its own is above zero. *)
Theorem search_results_are_ranked
  (query ns : jsstring) (w w' : World) (ms : list Memory) :
  searchMemories query ns w = (Returned ms, w') -> Sorted ranked ms.
Proof.
  intros H; apply searchMemories_matches in H as (qv & _ & ->).
  unfold memories_of.
  apply (sort_in_order Memory (fun a b => (score b - score a)%float)).
  intros x y; apply sub_above_zero_once.
Qed.

Lemma search_results_are_ranked_witness :
  Sorted ranked [mkMemory Scenario.tea 1%float (Scenario.ids 1);
                 mkMemory Scenario.coffee 0.75%float (Scenario.ids 0)].
Proof.
  assert (Hrun : fst (searchMemories (str "coffee preference") Scenario.alice
                        Cases.several)
                 = Returned [mkMemory Scenario.tea 1%float (Scenario.ids 1);
                             mkMemory Scenario.coffee 0.75%float (Scenario.ids 0)])
    by (vm_compute; reflexivity).
  exact (search_results_are_ranked _ _ _ _ _ (run_eq _ _ _ Hrun)).
Defined.

(** X24. [searchMemories] loses nothing and repeats nothing: what it
    returns is, up to order, the matches of the index that score above the
    threshold, each one turned into a memory. *)
Theorem search_returns_the_matches_above_threshold
  (query ns : jsstring) (w w' : World) (ms : list Memory) :
  searchMemories query ns w = (Returned ms, w') ->
  exists qv,
    AI w query = Some qv
    /\ Permutation ms
         (map memory_of_match
            (filter (fun m => (MINIMUM_SIMILARITY_SCORE <? match_score m)%float)
               (nearest w qv ns 10))).
Proof.
  intros H; apply searchMemories_matches in H as (qv & HAI & ->).
  exists qv; split; [exact HAI|].
  unfold memories_of; apply sort_permutes.
Qed.

Lemma search_returns_the_matches_above_threshold_witness :
  exists qv,
    AI Cases.several (str "coffee preference") = Some qv
    /\ Permutation
         [mkMemory Scenario.tea 1%float (Scenario.ids 1);
          mkMemory Scenario.coffee 0.75%float (Scenario.ids 0)]
         (map memory_of_match
            (filter (fun m => (MINIMUM_SIMILARITY_SCORE <? match_score m)%float)
               (nearest Cases.several qv Scenario.alice 10))).
Proof.
  assert (Hrun : fst (searchMemories (str "coffee preference") Scenario.alice
                        Cases.several)
                 = Returned [mkMemory Scenario.tea 1%float (Scenario.ids 1);
                             mkMemory Scenario.coffee 0.75%float (Scenario.ids 0)])
    by (vm_compute; reflexivity).
  exact (search_returns_the_matches_above_threshold _ _ _ _ _ (run_eq _ _ _ Hrun)).
Defined.
